(** * Role Definition and PostgreSQL AD Administrator resource handlers

    A shallow embedding of the two Terraform resource handlers

      - [azurerm_role_definition] (package [authorization]) and
      - [azurerm_postgresql_active_directory_administrator] (package [sql]),

    followed by the properties their specification states about them.

    Go values are embedded as follows.
      - [interface{}] values handed over by the schema are [iface]: the nil
        interface or a boxed string.  A failed type assertion, a nil pointer
        dereference and a method call on a nil pointer are the outcome
        [Panic].
      - A pointer [*T] is [option T]; a Go pair [(v, err)] is a pair whose
        second component is [option error].
      - A handler [func(d *schema.ResourceData, meta interface{}) error] is a
        computation in the monad [M]: it threads the resource data, the log
        of the API calls issued so far and a virtual clock, and ends by
        returning nil ([Ok]), returning an error ([Fail]) or panicking.
      - The remote API is a mock: the reply to a call is a function of the
        calls issued before it. *)

From Stdlib Require Import ZArith Lia.
From stdpp Require Import base option list strings gmap fin_maps.

Local Open Scope string_scope.
Local Open Scope list_scope.
Local Open Scope Z_scope.

(** ** Go values *)

(** An [interface{}] as the schema hands them to the handlers. *)
Inductive iface : Type :=
| inil
| istr (s : string).

#[global] Instance iface_eq_dec : EqDecision iface.
Proof. solve_decision. Defined.

(** The Go comparison [v != s] of an interface value with a string: the nil
    interface differs from every string. *)
Definition iface_neq_string (v : iface) (s : string) : bool :=
  match v with
  | inil => true
  | istr t => negb (String.eqb t s)
  end.

(** The type assertion [v.(string)]; [None] is the run-time panic. *)
Definition assert_string (v : iface) : option string :=
  match v with
  | inil => None
  | istr s => Some s
  end.

(** Go's [error] values.  [fmt.Errorf] keeps the format and its arguments
    apart: every call in the handlers takes [%q] strings followed by at most
    one [%+v] error, [Errorf] without and [ErrorfV] with that error. *)
Inductive error : Type :=
| ErrExternal (msg : string)
| Errorf (format : string) (quoted : list string)
| ErrorfV (format : string) (quoted : list string) (cause : error)
| ImportAsExistsError (resourceName id : string)
| TimeoutError (lastState : string) (expected : list string)
| UnexpectedStateError (state : string) (expected : list string).

(** The error wrapped by [e], directly or through nested [fmt.Errorf]. *)
Fixpoint root_cause (e : error) : error :=
  match e with
  | ErrorfV _ _ c => root_cause c
  | _ => e
  end.

(** ** The handler monad *)

Section Monad.
Context {St : Type}.

(** How a Go function call ends: a panic, a non-nil [error] result, or a
    value; the last two with the state they leave. *)
Inductive result (A : Type) : Type :=
| Panic
| Fail (e : error) (s : St)
| Ok (a : A) (s : St).

Definition M (A : Type) : Type := St -> result A.

Definition ret {A} (a : A) : M A := fun s => Ok A a s.

Definition bind {A B} (m : M A) (k : A -> M B) : M B :=
  fun s =>
    match m s with
    | Panic _ => Panic B
    | Fail _ e s' => Fail B e s'
    | Ok _ a s' => k a s'
    end.

(** [return err] with a non-nil [err]. *)
Definition throw {A} (e : error) : M A := fun s => Fail A e s.

Definition panic {A} : M A := fun _ => Panic A.

(** Dereferencing a pointer, or a checked type assertion. *)
Definition deref {A} (p : option A) : M A :=
  match p with
  | Some a => ret a
  | None => panic
  end.

End Monad.

Arguments result : clear implicits.
Arguments M : clear implicits.
Arguments Panic {St A}.
Arguments Fail {St A} e s.
Arguments Ok {St A} a s.

#[global] Instance M_ret {St} : MRet (M St) := fun A a => ret a.
#[global] Instance M_bind {St} : MBind (M St) := fun A B k m => bind m k.

(** ** Helpers of the host framework and of package [utils] *)

(** Modelled from the spec: the host framework's [schema.Set] is not among
    the sources.  A set is the map [m] of its items under their hash codes;
    the items of a set built with [schema.HashString] are strings, as that
    function type-asserts its argument.  [F] is the set's hash function. *)
Abbreviation schema_Set := (gmap Z string).

(** Modelled from the spec: [Set.hash], the key of an item: the hash code
    made non-negative. *)
Definition Set_hash (F : string -> Z) (item : string) : Z :=
  let code := F item in
  if code <? 0 then - code else code.

(** Modelled from the spec: [Set.add] stores an item under its key unless the
    key is taken. *)
Definition Set_add (F : string -> Z) (m : schema_Set) (item : string) : schema_Set :=
  let code := Set_hash F item in
  match m !! code with
  | Some _ => m
  | None => <[code := item]> m
  end.

(** Modelled from the spec: adding [items] in order; [None] is the panic of
    the hash function's type assertion on a nil item. *)
Fixpoint Set_add_all (F : string -> Z) (m : schema_Set) (items : list iface)
  : option schema_Set :=
  match items with
  | [] => Some m
  | v :: rest =>
      match assert_string v with
      | None => None
      | Some s => Set_add_all F (Set_add F m s) rest
      end
  end.

(** Modelled from the spec: [schema.NewSet(F, items)]. *)
Definition NewSet (F : string -> Z) (items : list iface) : option schema_Set :=
  Set_add_all F ∅ items.

(** Modelled from the spec: [Set.List()], the items in the order of the map's
    keys. *)
Definition Set_List (m : schema_Set) : list iface :=
  istr <$> (map_to_list m).*2.

(** Modelled from the spec: [Set.Equal] compares the two maps. *)
Definition Set_Equal (m1 m2 : schema_Set) : bool := bool_decide (m1 = m2).

(** The items of a set lie under their own keys; [Set.add] keeps it so. *)
Definition Set_wf (F : string -> Z) (m : schema_Set) : Prop :=
  forall k v, m !! k = Some v -> k = Set_hash F v.

(** Modelled from the spec: [utils.FlattenStringSlice] boxes the strings of a
    slice, a nil pointer giving the empty list (as its sibling
    [flattenRoleDefinitionAssignableScopes] does). *)
Definition FlattenStringSlice (input : option (list string)) : list iface :=
  match input with
  | None => []
  | Some l => istr <$> l
  end.

(** Modelled from the spec: [utils.ResponseWasNotFound] on the status code of
    a response ([None] when there is no HTTP response). *)
Definition ResponseWasNotFound (status : option Z) : bool :=
  match status with
  | Some code => code =? 404
  | None => false
  end.

(** ** SDK types *)

Module authorization.

Record Permission : Type := {
  Actions : option (list string);
  NotActions : option (list string);
  DataActions : option (list string);
  NotDataActions : option (list string)
}.

Record RoleDefinitionProperties : Type := {
  RoleName : option string;
  Description : option string;
  RoleType : option string;
  Permissions : option (list Permission);
  AssignableScopes : option (list string)
}.

(** [Response] is the status code of the embedded [autorest.Response]. *)
Record RoleDefinition : Type := {
  Response : option Z;
  ID : option string;
  Properties : option RoleDefinitionProperties
}.

End authorization.

(** The workaround client decodes the two timestamps as well. *)
Module azuresdkhacks.

Record RoleDefinitionProperties : Type := {
  RoleName : option string;
  Description : option string;
  RoleType : option string;
  Permissions : option (list authorization.Permission);
  AssignableScopes : option (list string);
  CreatedOn : option string;
  UpdatedOn : option string
}.

Record RoleDefinition : Type := {
  Response : option Z;
  ID : option string;
  Properties : option RoleDefinitionProperties
}.

End azuresdkhacks.

Module parse.

Record RoleDefinitionID : Type := {
  ResourceID : string;
  Scope : string;
  RoleID : string
}.

End parse.

(** ** Role Definition: expanding and flattening *)

(** One [permissions] block as the schema hands it over: the lists and sets
    under the keys of the [map[string]interface{}]. *)
Record PermissionBlock : Type := {
  actions : list iface;
  not_actions : list iface;
  data_actions : schema_Set;
  not_data_actions : schema_Set
}.

(** The loop [for _, a := range l { if a == nil { continue }; out = append(out, a.(string)) }]. *)
Fixpoint append_strings (out : list string) (l : list iface) : list string :=
  match l with
  | [] => out
  | inil :: rest => append_strings out rest
  | istr s :: rest => append_strings (out ++ [s]) rest
  end.

Definition expandPermission (raw : PermissionBlock) : authorization.Permission :=
  {| authorization.Actions := Some (append_strings [] (actions raw));
     authorization.DataActions := Some (append_strings [] (Set_List (data_actions raw)));
     authorization.NotActions := Some (append_strings [] (not_actions raw));
     authorization.NotDataActions := Some (append_strings [] (Set_List (not_data_actions raw))) |}.

(** A nil entry of [input] is skipped. *)
Fixpoint expandRoleDefinitionPermissions_loop
  (output : list authorization.Permission) (input : list (option PermissionBlock))
  : list authorization.Permission :=
  match input with
  | [] => output
  | None :: rest => expandRoleDefinitionPermissions_loop output rest
  | Some raw :: rest =>
      expandRoleDefinitionPermissions_loop (output ++ [expandPermission raw]) rest
  end.

Definition expandRoleDefinitionPermissions (input : list (option PermissionBlock))
  : list authorization.Permission :=
  if (length input =? 0)%nat then [] else expandRoleDefinitionPermissions_loop [] input.

(** The loop of [expandRoleDefinitionAssignableScopes]; [None] is the panic of
    [scope.(string)] on a nil entry. *)
Fixpoint expandRoleDefinitionAssignableScopes_loop
  (assignedScope : string) (scopes : list string) (assignableScopes : list iface)
  : option (list string) :=
  match assignableScopes with
  | [] => Some scopes
  | scope :: rest =>
      if iface_neq_string scope assignedScope then
        match assert_string scope with
        | None => None
        | Some s => expandRoleDefinitionAssignableScopes_loop assignedScope (scopes ++ [s]) rest
        end
      else expandRoleDefinitionAssignableScopes_loop assignedScope scopes rest
  end.

Definition flattenPermission (F : string -> Z) (permission : authorization.Permission)
  : option PermissionBlock :=
  match NewSet F (FlattenStringSlice (authorization.DataActions permission)),
        NewSet F (FlattenStringSlice (authorization.NotDataActions permission)) with
  | Some da, Some nda =>
      Some {| actions := FlattenStringSlice (authorization.Actions permission);
              data_actions := da;
              not_actions := FlattenStringSlice (authorization.NotActions permission);
              not_data_actions := nda |}
  | _, _ => None
  end.

Fixpoint flattenRoleDefinitionPermissions_loop (F : string -> Z)
  (permissions : list (option PermissionBlock)) (input : list authorization.Permission)
  : option (list (option PermissionBlock)) :=
  match input with
  | [] => Some permissions
  | permission :: rest =>
      match flattenPermission F permission with
      | None => None
      | Some block => flattenRoleDefinitionPermissions_loop F (permissions ++ [Some block]) rest
      end
  end.

(** [F] is [schema.HashString]; [None] is a panic inside [schema.NewSet]. *)
Definition flattenRoleDefinitionPermissions (F : string -> Z)
  (input : option (list authorization.Permission)) : option (list (option PermissionBlock)) :=
  match input with
  | None => Some []
  | Some l => flattenRoleDefinitionPermissions_loop F [] l
  end.

Fixpoint flattenRoleDefinitionAssignableScopes_loop
  (scopes : list iface) (input : list string) : list iface :=
  match input with
  | [] => scopes
  | scope :: rest => flattenRoleDefinitionAssignableScopes_loop (scopes ++ [istr scope]) rest
  end.

Definition flattenRoleDefinitionAssignableScopes (input : option (list string)) : list iface :=
  match input with
  | None => []
  | Some l => flattenRoleDefinitionAssignableScopes_loop [] l
  end.

(** ** Handler state: resource data, API call log, virtual clock *)

(** [D] is the resource's [schema.ResourceData], [C] the type of the API
    calls of its client.  [now] counts seconds. *)
Record State (D C : Type) : Type := {
  d : D;
  log : list C;
  now : Z
}.

Arguments d {D C} s.
Arguments log {D C} s.
Arguments now {D C} s.

Section StateOps.
Context {D C : Type}.

(** [d.Get]: reading a field of the resource data. *)
Definition d_Get {A} (field : D -> A) : M (State D C) A :=
  fun s => Ok (field (d s)) s.

(** [d.Set] and [d.SetId]: updating the resource data. *)
Definition d_Set (upd : D -> D) : M (State D C) unit :=
  fun s => Ok tt {| d := upd (d s); log := log s; now := now s |}.

(** An API call: the mock's reply is a function of the calls issued before;
    the call is appended to the log. *)
Definition api_call {A} (c : C) (reply : list C -> A) : M (State D C) A :=
  fun s => Ok (reply (log s)) {| d := d s; log := log s ++ [c]; now := now s |}.

(** [time.Sleep]. *)
Definition sleep (seconds : Z) : M (State D C) unit :=
  fun s => Ok tt {| d := d s; log := log s; now := now s + seconds |}.

Definition time_Now : M (State D C) Z := fun s => Ok (now s) s.

End StateOps.

(** ** The host framework's state-change poll *)

Module resource.

Section StateChangeConf.
Context {D C R : Type}.

Record StateChangeConf : Type := {
  ContinuousTargetOccurence : Z;
  Delay : Z;
  MinTimeout : Z;
  Pending : list string;
  Target : list string;
  Refresh : M (State D C) (R * string * option error);
  Timeout : Z
}.

(** Modelled from the spec: the poll loop of [WaitForState], which is the
    host framework's and not among the sources.  Each round gives up with a
    timeout error once the deadline is reached; otherwise it takes one
    observation: an error aborts at once, a target state counts towards
    [ContinuousTargetOccurence] consecutive ones, a pending state resets the
    count, any other state is an error.  Rounds are [MinTimeout] seconds
    apart.  [fuel] bounds the number of rounds. *)
Fixpoint WaitForState_loop (conf : StateChangeConf) (deadline : Z) (fuel : nat)
  (targetOccurence : Z) (lastState : string) : M (State D C) (option R * option error) :=
  match fuel with
  | O => mret (None, Some (TimeoutError lastState (Target conf)))
  | S fuel' =>
      t ← time_Now;
      if deadline <=? t then mret (None, Some (TimeoutError lastState (Target conf)))
      else
        '(res, currentState, err) ← Refresh conf;
        match err with
        | Some e => mret (None, Some e)
        | None =>
            if bool_decide (currentState ∈ Target conf) then
              if ContinuousTargetOccurence conf =? targetOccurence + 1
              then mret (Some res, None)
              else sleep (MinTimeout conf);;
                   WaitForState_loop conf deadline fuel' (targetOccurence + 1) currentState
            else if bool_decide (currentState ∈ Pending conf) then
              sleep (MinTimeout conf);;
              WaitForState_loop conf deadline fuel' 0 currentState
            else mret (None, Some (UnexpectedStateError currentState (Target conf)))
        end
  end.

(** Modelled from the spec: [StateChangeConf.WaitForState]: wait [Delay]
    seconds, then poll until [Timeout] seconds have passed since the call.
    With rounds at least a second apart, [Timeout] rounds reach the
    deadline. *)
Definition WaitForState (conf : StateChangeConf) : M (State D C) (option R * option error) :=
  start ← time_Now;
  sleep (Delay conf);;
  WaitForState_loop conf (start + Timeout conf) (Z.to_nat (Timeout conf)) 0 "".

End StateChangeConf.

Arguments StateChangeConf : clear implicits.

End resource.

(** ** The Role Definition handler *)

Module role_definition.

(** The fields of [azurerm_role_definition], the stored identifier,
    [d.IsNewResource()] and the update timeout in seconds. *)
Record ResourceData : Type := {
  Id : string;
  IsNewResource : bool;
  role_definition_id : string;
  name : string;
  scope : string;
  description : string;
  permissions : list (option PermissionBlock);
  assignable_scopes : list iface;
  role_definition_resource_id : string;
  TimeoutUpdate : Z
}.

Definition SetId (v : string) (r : ResourceData) : ResourceData :=
  {| Id := v; IsNewResource := IsNewResource r;
     role_definition_id := role_definition_id r; name := name r; scope := scope r;
     description := description r; permissions := permissions r;
     assignable_scopes := assignable_scopes r;
     role_definition_resource_id := role_definition_resource_id r;
     TimeoutUpdate := TimeoutUpdate r |}.

Definition Set_role_definition_id (v : string) (r : ResourceData) : ResourceData :=
  {| Id := Id r; IsNewResource := IsNewResource r;
     role_definition_id := v; name := name r; scope := scope r;
     description := description r; permissions := permissions r;
     assignable_scopes := assignable_scopes r;
     role_definition_resource_id := role_definition_resource_id r;
     TimeoutUpdate := TimeoutUpdate r |}.

Definition Set_name (v : string) (r : ResourceData) : ResourceData :=
  {| Id := Id r; IsNewResource := IsNewResource r;
     role_definition_id := role_definition_id r; name := v; scope := scope r;
     description := description r; permissions := permissions r;
     assignable_scopes := assignable_scopes r;
     role_definition_resource_id := role_definition_resource_id r;
     TimeoutUpdate := TimeoutUpdate r |}.

Definition Set_scope (v : string) (r : ResourceData) : ResourceData :=
  {| Id := Id r; IsNewResource := IsNewResource r;
     role_definition_id := role_definition_id r; name := name r; scope := v;
     description := description r; permissions := permissions r;
     assignable_scopes := assignable_scopes r;
     role_definition_resource_id := role_definition_resource_id r;
     TimeoutUpdate := TimeoutUpdate r |}.

Definition Set_description (v : string) (r : ResourceData) : ResourceData :=
  {| Id := Id r; IsNewResource := IsNewResource r;
     role_definition_id := role_definition_id r; name := name r; scope := scope r;
     description := v; permissions := permissions r;
     assignable_scopes := assignable_scopes r;
     role_definition_resource_id := role_definition_resource_id r;
     TimeoutUpdate := TimeoutUpdate r |}.

Definition Set_permissions (v : list (option PermissionBlock)) (r : ResourceData)
  : ResourceData :=
  {| Id := Id r; IsNewResource := IsNewResource r;
     role_definition_id := role_definition_id r; name := name r; scope := scope r;
     description := description r; permissions := v;
     assignable_scopes := assignable_scopes r;
     role_definition_resource_id := role_definition_resource_id r;
     TimeoutUpdate := TimeoutUpdate r |}.

Definition Set_assignable_scopes (v : list iface) (r : ResourceData) : ResourceData :=
  {| Id := Id r; IsNewResource := IsNewResource r;
     role_definition_id := role_definition_id r; name := name r; scope := scope r;
     description := description r; permissions := permissions r;
     assignable_scopes := v;
     role_definition_resource_id := role_definition_resource_id r;
     TimeoutUpdate := TimeoutUpdate r |}.

Definition Set_role_definition_resource_id (v : string) (r : ResourceData) : ResourceData :=
  {| Id := Id r; IsNewResource := IsNewResource r;
     role_definition_id := role_definition_id r; name := name r; scope := scope r;
     description := description r; permissions := permissions r;
     assignable_scopes := assignable_scopes r;
     role_definition_resource_id := v;
     TimeoutUpdate := TimeoutUpdate r |}.

(** The calls of [RoleDefinitionsClient] and of the workaround client built
    on it. *)
Inductive Call : Type :=
| Get (scope roleID : string)
| CreateOrUpdate (scope roleID : string) (properties : authorization.RoleDefinition)
| Delete (scope roleID : string)
| WorkaroundGet (scope roleID : string)
| WorkaroundCreateOrUpdate (scope roleID : string) (properties : authorization.RoleDefinition).

(** What the handlers take from outside: the replies of the two clients,
    each a function of the calls issued before, and the package-level helpers
    that are not among the sources: [parse.RoleDefinitionId] with its Go
    result pair, [schema.HashString] and the outcome of [uuid.GenerateUUID]. *)
Record Meta : Type := {
  Get_reply : list Call -> string -> string ->
              authorization.RoleDefinition * option error;
  CreateOrUpdate_reply : list Call -> string -> string -> authorization.RoleDefinition ->
              authorization.RoleDefinition * option error;
  Delete_reply : list Call -> string -> string ->
              authorization.RoleDefinition * option error;
  WorkaroundGet_reply : list Call -> string -> string ->
              azuresdkhacks.RoleDefinition * option error;
  WorkaroundCreateOrUpdate_reply : list Call -> string -> string ->
              authorization.RoleDefinition -> azuresdkhacks.RoleDefinition * option error;
  RoleDefinitionId : string -> option parse.RoleDefinitionID * option error;
  HashString : string -> Z;
  GenerateUUID : string * option error
}.

Abbreviation St := (State ResourceData Call).

(** [d.Set] of a value of the field's type does not fail; the error branches
    after [d.Set] in Read are not modelled.  Setting a nil [*string] leaves
    the field's zero value. *)
Section Handlers.
Variable meta : Meta.

Definition client_Get (scope roleID : string) : M St _ :=
  api_call (Get scope roleID) (fun l => Get_reply meta l scope roleID).

Definition client_CreateOrUpdate (scope roleID : string)
  (properties : authorization.RoleDefinition) : M St _ :=
  api_call (CreateOrUpdate scope roleID properties)
           (fun l => CreateOrUpdate_reply meta l scope roleID properties).

Definition client_Delete (scope roleID : string) : M St _ :=
  api_call (Delete scope roleID) (fun l => Delete_reply meta l scope roleID).

Definition workaround_Get (scope roleID : string) : M St _ :=
  api_call (WorkaroundGet scope roleID) (fun l => WorkaroundGet_reply meta l scope roleID).

Definition workaround_CreateOrUpdate (scope roleID : string)
  (properties : authorization.RoleDefinition) : M St _ :=
  api_call (WorkaroundCreateOrUpdate scope roleID properties)
           (fun l => WorkaroundCreateOrUpdate_reply meta l scope roleID properties).

Definition expandRoleDefinitionAssignableScopes (r : ResourceData) : option (list string) :=
  let scopes := [] in
  let assignedScope := scope r in
  let scopes := scopes ++ [assignedScope] in
  let assignableScopes := assignable_scopes r in
  expandRoleDefinitionAssignableScopes_loop assignedScope scopes assignableScopes.

Definition resourceArmRoleDefinitionRead : M St unit :=
  id ← d_Get Id;
  let '(roleDefinitionId, err) := RoleDefinitionId meta id in
  match err with
  | Some e => throw e
  | None =>
      roleDefinitionId ← deref roleDefinitionId;
      d_Set (Set_scope (parse.Scope roleDefinitionId));;
      d_Set (Set_role_definition_id (parse.RoleID roleDefinitionId));;
      d_Set (Set_role_definition_resource_id (parse.ResourceID roleDefinitionId));;
      '(resp, err) ← client_Get (parse.Scope roleDefinitionId) (parse.RoleID roleDefinitionId);
      match err with
      | Some e =>
          if ResponseWasNotFound (authorization.Response resp) then
            d_Set (SetId "");;
            mret tt
          else
            id ← d_Get Id;
            throw (ErrorfV "Error loading Role Definition %q: %+v" [id] e)
      | None =>
          match authorization.Properties resp with
          | Some props =>
              d_Set (Set_name (default "" (authorization.RoleName props)));;
              d_Set (Set_description (default "" (authorization.Description props)));;
              permissions ← deref (flattenRoleDefinitionPermissions (HashString meta)
                                     (authorization.Permissions props));
              d_Set (Set_permissions permissions);;
              let assignableScopes :=
                flattenRoleDefinitionAssignableScopes (authorization.AssignableScopes props) in
              d_Set (Set_assignable_scopes assignableScopes);;
              mret tt
          | None => mret tt
          end
      end
  end.

Definition resourceArmRoleDefinitionCreate : M St unit :=
  roleDefinitionId ← d_Get role_definition_id;
  roleDefinitionId ←
    (if String.eqb roleDefinitionId "" then
       let '(uuid, err) := GenerateUUID meta in
       match err with
       | Some e => throw (ErrorfV "Error generating UUID for Role Assignment: %+v" [] e)
       | None => mret uuid
       end
     else mret roleDefinitionId);
  name ← d_Get name;
  scope ← d_Get scope;
  description ← d_Get description;
  let roleType := "CustomRole" in
  permissionsRaw ← d_Get permissions;
  let permissions := expandRoleDefinitionPermissions permissionsRaw in
  assignableScopes ← d_Get expandRoleDefinitionAssignableScopes ≫= deref;
  isNew ← d_Get IsNewResource;
  (if isNew : bool then
     '(existing, err) ← client_Get scope roleDefinitionId;
     match err with
     | Some _ =>
         if negb (ResponseWasNotFound (authorization.Response existing)) then
           throw (Errorf "Error checking for presence of existing Role Definition ID for %q (Scope %q)"
                         [name; scope])
         else mret tt
     | None => mret tt
     end;;
     match authorization.ID existing with
     | Some existingID =>
         if negb (String.eqb existingID "") then
           let importID := existingID +:+ "|" +:+ scope in
           throw (ImportAsExistsError "azurerm_role_definition" importID)
         else mret tt
     | None => mret tt
     end
   else mret tt);;
  let properties :=
    {| authorization.Response := None;
       authorization.ID := None;
       authorization.Properties := Some
         {| authorization.RoleName := Some name;
            authorization.Description := Some description;
            authorization.RoleType := Some roleType;
            authorization.Permissions := Some permissions;
            authorization.AssignableScopes := Some assignableScopes |} |} in
  '(_, err) ← client_CreateOrUpdate scope roleDefinitionId properties;
  match err with
  | Some e => throw e
  | None =>
      '(read, err) ← client_Get scope roleDefinitionId;
      match err with
      | Some e => throw e
      | None =>
          match authorization.ID read with
          | None => throw (Errorf "Cannot read Role Definition ID for %q (Scope %q)" [name; scope])
          | Some readID =>
              if String.eqb readID "" then
                throw (Errorf "Cannot read Role Definition ID for %q (Scope %q)" [name; scope])
              else
                d_Set (SetId (readID +:+ "|" +:+ scope));;
                resourceArmRoleDefinitionRead
          end
      end
  end.

Definition roleDefinitionEventualConsistencyUpdate
  (id : parse.RoleDefinitionID) (expectedUpdateDate : string)
  : M St (azuresdkhacks.RoleDefinition * string * option error) :=
  '(resp, err) ← workaround_Get (parse.Scope id) (parse.RoleID id);
  match err with
  | Some e => mret (resp, "Failed", Some e)
  | None =>
      match azuresdkhacks.Properties resp with
      | None => mret (resp, "Failed", Some (Errorf "`properties` was nil" []))
      | Some props =>
          match azuresdkhacks.CreatedOn props with
          | None => mret (resp, "Failed", Some (Errorf "`properties.CreatedOn` was nil" []))
          | Some respCreatedOn =>
              respUpdatedOn ← deref (azuresdkhacks.UpdatedOn props);
              if String.eqb respCreatedOn expectedUpdateDate then
                mret (resp, "Pending", None)
              else if negb (String.eqb respUpdatedOn expectedUpdateDate) then
                mret (resp, "Pending", None)
              else mret (resp, "Updated", None)
          end
      end
  end.

(** The [resource.StateChangeConf] built by the update. *)
Definition stateConf (roleDefinitionId : parse.RoleDefinitionID) (updatedOn : string)
  (timeout : Z) : resource.StateChangeConf ResourceData Call azuresdkhacks.RoleDefinition :=
  {| resource.ContinuousTargetOccurence := 5;
     resource.Delay := 10;
     resource.MinTimeout := 10;
     resource.Pending := ["Pending"];
     resource.Target := ["Updated"];
     resource.Refresh := roleDefinitionEventualConsistencyUpdate roleDefinitionId updatedOn;
     resource.Timeout := timeout |}.

Definition resourceArmRoleDefinitionUpdate : M St unit :=
  id ← d_Get Id;
  let '(roleDefinitionId, err) := RoleDefinitionId meta id in
  match err with
  | Some e => throw e
  | None =>
      name ← d_Get name;
      description ← d_Get description;
      let roleType := "CustomRole" in
      permissionsRaw ← d_Get permissions;
      let permissions := expandRoleDefinitionPermissions permissionsRaw in
      assignableScopes ← d_Get expandRoleDefinitionAssignableScopes ≫= deref;
      let properties :=
        {| authorization.Response := None;
           authorization.ID := None;
           authorization.Properties := Some
             {| authorization.RoleName := Some name;
                authorization.Description := Some description;
                authorization.RoleType := Some roleType;
                authorization.Permissions := Some permissions;
                authorization.AssignableScopes := Some assignableScopes |} |} in
      roleDefinitionId ← deref roleDefinitionId;
      let Scope := parse.Scope roleDefinitionId in
      let RoleID := parse.RoleID roleDefinitionId in
      '(resp, err) ← workaround_CreateOrUpdate Scope RoleID properties;
      match err with
      | Some e =>
          throw (ErrorfV "updating Role Definition %q (Scope %q): %+v" [RoleID; Scope] e)
      | None =>
          match azuresdkhacks.Properties resp with
          | None =>
              throw (Errorf "updating Role Definition %q (Scope %q): `properties` was nil"
                            [RoleID; Scope])
          | Some props =>
              match azuresdkhacks.UpdatedOn props with
              | None =>
                  throw (Errorf "updating Role Definition %q (Scope %q): `properties.UpdatedOn` was nil"
                                [RoleID; Scope])
              | Some updatedOn =>
                  timeout ← d_Get TimeoutUpdate;
                  '(_, err) ← resource.WaitForState (stateConf roleDefinitionId updatedOn timeout);
                  match err with
                  | Some e =>
                      throw (ErrorfV "waiting for Role Definition %q (Scope %q) to settle down: %+v"
                                     [RoleID; Scope] e)
                  | None => resourceArmRoleDefinitionRead
                  end
              end
          end
      end
  end.

Definition resourceArmRoleDefinitionDelete : M St unit :=
  id ← d_Get Id;
  let '(id, _) := RoleDefinitionId meta id in
  id ← deref id;
  '(resp, err) ← client_Delete (parse.Scope id) (parse.RoleID id);
  match err with
  | Some e =>
      if negb (ResponseWasNotFound (authorization.Response resp)) then
        throw (ErrorfV "deleting Role Definition %q at Scope %q: %+v"
                       [parse.RoleID id; parse.Scope id] e)
      else mret tt
  | None => mret tt
  end.

End Handlers.

(** *** Preconditions of the create handler *)

Section CreatePreconditions.
Variable meta : Meta.

(** [roleID] is the identifier Create works with: the configured
    [role_definition_id] when it is not empty, else a freshly generated
    one. *)
Definition role_id_for_create (r : ResourceData) (roleID : string) : Prop :=
  (role_definition_id r = roleID /\ roleID ≠ "")
  \/ (role_definition_id r = "" /\ GenerateUUID meta = (roleID, None)).

(** The pre-existence check of Create finds nothing: the resource is not
    new, or the fetch succeeds or reports not-found and carries no remote
    identifier. *)
Definition nothing_exists (s : St) (roleID : string) : Prop :=
  IsNewResource (d s) = false
  \/ (IsNewResource (d s) = true
      /\ exists existing err,
           Get_reply meta (log s) (scope (d s)) roleID = (existing, err)
           /\ (err = None \/ ResponseWasNotFound (authorization.Response existing) = true)
           /\ (authorization.ID existing = None \/ authorization.ID existing = Some "")).

(** The call log after the pre-existence check. *)
Definition log_after_check (s : St) (roleID : string) : list Call :=
  if IsNewResource (d s) then log s ++ [Get (scope (d s)) roleID] else log s.

(** The payload Create and Update send. *)
Definition payload (r : ResourceData) (assignableScopes : list string)
  : authorization.RoleDefinition :=
  {| authorization.Response := None;
     authorization.ID := None;
     authorization.Properties := Some
       {| authorization.RoleName := Some (name r);
          authorization.Description := Some (description r);
          authorization.RoleType := Some "CustomRole";
          authorization.Permissions := Some (expandRoleDefinitionPermissions (permissions r));
          authorization.AssignableScopes := Some assignableScopes |} |}.

End CreatePreconditions.

(** *** Mocked observation sequences of the convergence poll *)

Section Poll.
Variable meta : Meta.
Variable id : parse.RoleDefinitionID.
Variable expectedUpdateDate : string.

(** The state after one more [Get] of the workaround client. *)
Definition observed (s : St) : St :=
  {| d := d s;
     log := log s ++ [WorkaroundGet (parse.Scope id) (parse.RoleID id)];
     now := now s |}.

(** The state a poll starts in, [Delay] seconds after the call. *)
Definition delayed (s : St) : St :=
  {| d := d s; log := log s; now := now s + 10 |}.

(** The state after one observation and the wait of [MinTimeout] seconds
    that follows it. *)
Definition next_round (s : St) : St :=
  {| d := d s;
     log := log s ++ [WorkaroundGet (parse.Scope id) (parse.RoleID id)];
     now := now s + 10 |}.

(** The state in which observation number [i] (from 0) is taken, when the
    poll starts in [s]. *)
Fixpoint polled (s : St) (i : nat) : St :=
  match i with
  | O => s
  | S i' => polled (next_round s) i'
  end.

(** The mocked read that observation number [i] fetches. *)
Definition reply_at (s : St) (i : nat) : azuresdkhacks.RoleDefinition * option error :=
  WorkaroundGet_reply meta (log (polled s i)) (parse.Scope id) (parse.RoleID id).

(** A read of the freshly recreated copy: its createdOn is the expected
    updatedOn marker. *)
Definition shadow_copy (r : azuresdkhacks.RoleDefinition * option error) : Prop :=
  exists resp props respUpdatedOn,
    r = (resp, None)
    /\ azuresdkhacks.Properties resp = Some props
    /\ azuresdkhacks.CreatedOn props = Some expectedUpdateDate
    /\ azuresdkhacks.UpdatedOn props = Some respUpdatedOn.

(** A read of the reconciled object: createdOn differs from the marker and
    updatedOn equals it.  These are the reads observed as Updated. *)
Definition reconciled (r : azuresdkhacks.RoleDefinition * option error) : Prop :=
  exists resp props respCreatedOn,
    r = (resp, None)
    /\ azuresdkhacks.Properties resp = Some props
    /\ azuresdkhacks.CreatedOn props = Some respCreatedOn
    /\ respCreatedOn ≠ expectedUpdateDate
    /\ azuresdkhacks.UpdatedOn props = Some expectedUpdateDate.

(** A read that has createdOn but lacks updatedOn. *)
Definition lacks_UpdatedOn (r : azuresdkhacks.RoleDefinition * option error) : Prop :=
  exists resp props respCreatedOn,
    r = (resp, None)
    /\ azuresdkhacks.Properties resp = Some props
    /\ azuresdkhacks.CreatedOn props = Some respCreatedOn
    /\ azuresdkhacks.UpdatedOn props = None.

End Poll.

End role_definition.

(** ** The PostgreSQL Active Directory Administrator handler *)

Module postgresql.

(** A [uuid.UUID] in its canonical text. *)
Abbreviation UUID := string.

Record ServerAdministratorProperties : Type := {
  AdministratorType : option string;
  Login : option string;
  Sid : option UUID;
  TenantID : option UUID
}.

Record ServerAdministratorResource : Type := {
  Response : option Z;
  ID : option string;
  Properties : option ServerAdministratorProperties
}.

End postgresql.

Module azure.

(** The parts of a parsed resource identifier the handler reads. *)
Record ResourceID : Type := {
  ResourceGroup : string;
  Path : gmap string string
}.

End azure.

Module postgres.

Record ResourceData : Type := {
  Id : string;
  IsNewResource : bool;
  server_name : string;
  resource_group_name : string;
  login : string;
  object_id : string;
  tenant_id : string
}.

Definition SetId (v : string) (r : ResourceData) : ResourceData :=
  {| Id := v; IsNewResource := IsNewResource r; server_name := server_name r;
     resource_group_name := resource_group_name r; login := login r;
     object_id := object_id r; tenant_id := tenant_id r |}.

Definition Set_server_name (v : string) (r : ResourceData) : ResourceData :=
  {| Id := Id r; IsNewResource := IsNewResource r; server_name := v;
     resource_group_name := resource_group_name r; login := login r;
     object_id := object_id r; tenant_id := tenant_id r |}.

Definition Set_resource_group_name (v : string) (r : ResourceData) : ResourceData :=
  {| Id := Id r; IsNewResource := IsNewResource r; server_name := server_name r;
     resource_group_name := v; login := login r;
     object_id := object_id r; tenant_id := tenant_id r |}.

Definition Set_login (v : string) (r : ResourceData) : ResourceData :=
  {| Id := Id r; IsNewResource := IsNewResource r; server_name := server_name r;
     resource_group_name := resource_group_name r; login := v;
     object_id := object_id r; tenant_id := tenant_id r |}.

Definition Set_object_id (v : string) (r : ResourceData) : ResourceData :=
  {| Id := Id r; IsNewResource := IsNewResource r; server_name := server_name r;
     resource_group_name := resource_group_name r; login := login r;
     object_id := v; tenant_id := tenant_id r |}.

Definition Set_tenant_id (v : string) (r : ResourceData) : ResourceData :=
  {| Id := Id r; IsNewResource := IsNewResource r; server_name := server_name r;
     resource_group_name := resource_group_name r; login := login r;
     object_id := object_id r; tenant_id := v |}.

(** The calls of [ServerAdministratorsClient], and the wait on the future of
    an upsert. *)
Inductive Call : Type :=
| Get (resourceGroup serverName : string)
| CreateOrUpdate (resourceGroup serverName : string)
                 (parameters : postgresql.ServerAdministratorResource)
| WaitForCompletionRef
| Delete (resourceGroup serverName : string).

(** The replies of the client, each a function of the calls issued before,
    and the helpers that are not among the sources:
    [azure.ParseAzureResourceID] with its Go result pair,
    [uuid.FromStringOrNil] and [features.ShouldResourcesBeImported]. *)
Record Meta : Type := {
  Get_reply : list Call -> string -> string ->
              postgresql.ServerAdministratorResource * option error;
  CreateOrUpdate_reply : list Call -> string -> string ->
              postgresql.ServerAdministratorResource -> option error;
  WaitForCompletionRef_reply : list Call -> option error;
  Delete_reply : list Call -> string -> string -> option error;
  ParseAzureResourceID : string -> option azure.ResourceID * option error;
  FromStringOrNil : string -> postgresql.UUID;
  ShouldResourcesBeImported : bool
}.

Abbreviation St := (State ResourceData Call).

Section Handlers.
Variable meta : Meta.

Definition client_Get (resourceGroup serverName : string) : M St _ :=
  api_call (Get resourceGroup serverName) (fun l => Get_reply meta l resourceGroup serverName).

Definition client_CreateOrUpdate (resourceGroup serverName : string)
  (parameters : postgresql.ServerAdministratorResource) : M St _ :=
  api_call (CreateOrUpdate resourceGroup serverName parameters)
           (fun l => CreateOrUpdate_reply meta l resourceGroup serverName parameters).

Definition future_WaitForCompletionRef : M St _ :=
  api_call WaitForCompletionRef (fun l => WaitForCompletionRef_reply meta l).

Definition client_Delete (resourceGroup serverName : string) : M St _ :=
  api_call (Delete resourceGroup serverName)
           (fun l => Delete_reply meta l resourceGroup serverName).

Definition resourceArmPostgreSQLAdministratorCreateUpdate : M St unit :=
  serverName ← d_Get server_name;
  resGroup ← d_Get resource_group_name;
  login ← d_Get login;
  objectId ← d_Get object_id;
  let objectId := FromStringOrNil meta objectId in
  tenantId ← d_Get tenant_id;
  let tenantId := FromStringOrNil meta tenantId in
  isNew ← d_Get IsNewResource;
  (if ShouldResourcesBeImported meta && isNew then
     '(existing, err) ← client_Get resGroup serverName;
     match err with
     | Some e =>
         if negb (ResponseWasNotFound (postgresql.Response existing)) then
           throw (ErrorfV "Error checking for presence of existing PostgreSQL AD Administrator (Resource Group %q, Server %q): %+v"
                          [resGroup; serverName] e)
         else mret tt
     | None => mret tt
     end;;
     match postgresql.ID existing with
     | Some existingID =>
         if negb (String.eqb existingID "") then
           throw (ImportAsExistsError "azurerm_postgresql_active_directory_administrator"
                                      existingID)
         else mret tt
     | None => mret tt
     end
   else mret tt);;
  let parameters :=
    {| postgresql.Response := None;
       postgresql.ID := None;
       postgresql.Properties := Some
         {| postgresql.AdministratorType := Some "ActiveDirectory";
            postgresql.Login := Some login;
            postgresql.Sid := Some objectId;
            postgresql.TenantID := Some tenantId |} |} in
  err ← client_CreateOrUpdate resGroup serverName parameters;
  match err with
  | Some e =>
      throw (ErrorfV "Error issuing create/update request for PostgreSQL AD Administrator (Resource Group %q, Server %q): %+v"
                     [resGroup; serverName] e)
  | None =>
      err ← future_WaitForCompletionRef;
      match err with
      | Some e =>
          throw (ErrorfV "Error waiting on create/update future for PostgreSQL AD Administrator (Resource Group %q, Server %q): %+v"
                         [resGroup; serverName] e)
      | None =>
          '(resp, err) ← client_Get resGroup serverName;
          match err with
          | Some e =>
              throw (ErrorfV "Error issuing get request for PostgreSQL AD Administrator (Resource Group %q, Server %q): %+v"
                             [resGroup; serverName] e)
          | None =>
              respID ← deref (postgresql.ID resp);
              d_Set (SetId respID);;
              mret tt
          end
      end
  end.

Definition resourceArmPostgreSQLAdministratorRead : M St unit :=
  id ← d_Get Id;
  let '(id, err) := ParseAzureResourceID meta id in
  match err with
  | Some e => throw e
  | None =>
      id ← deref id;
      let resourceGroup := azure.ResourceGroup id in
      let serverName := default "" (azure.Path id !! "servers") in
      '(resp, err) ← client_Get resourceGroup serverName;
      match err with
      | Some e =>
          if ResponseWasNotFound (postgresql.Response resp) then
            d_Set (SetId "");;
            mret tt
          else throw (ErrorfV "Error reading PostgreSQL AD administrator: %+v" [] e)
      | None =>
          d_Set (Set_resource_group_name resourceGroup);;
          d_Set (Set_server_name serverName);;
          props ← deref (postgresql.Properties resp);
          d_Set (Set_login (default "" (postgresql.Login props)));;
          sid ← deref (postgresql.Sid props);
          d_Set (Set_object_id sid);;
          tenantID ← deref (postgresql.TenantID props);
          d_Set (Set_tenant_id tenantID);;
          mret tt
      end
  end.

Definition resourceArmPostgreSQLAdministratorDelete : M St unit :=
  id ← d_Get Id;
  let '(id, err) := ParseAzureResourceID meta id in
  match err with
  | Some e => throw e
  | None =>
      id ← deref id;
      let resourceGroup := azure.ResourceGroup id in
      let serverName := default "" (azure.Path id !! "servers") in
      err ← client_Delete resourceGroup serverName;
      match err with
      | Some e => throw (ErrorfV "Error deleting PostgreSQL AD Administrator: %+v" [] e)
      | None => mret tt
      end
  end.

End Handlers.

(** *** Preconditions of the create/update handler *)

Section CreateUpdatePreconditions.
Variable meta : Meta.

(** The import check of CreateUpdate is skipped or finds nothing. *)
Definition nothing_exists (s : St) : Prop :=
  ShouldResourcesBeImported meta && IsNewResource (d s) = false
  \/ (ShouldResourcesBeImported meta && IsNewResource (d s) = true
      /\ exists existing err,
           Get_reply meta (log s) (resource_group_name (d s)) (server_name (d s))
           = (existing, err)
           /\ (err = None \/ ResponseWasNotFound (postgresql.Response existing) = true)
           /\ (postgresql.ID existing = None \/ postgresql.ID existing = Some "")).

(** The call log after the import check. *)
Definition log_after_check (s : St) : list Call :=
  if ShouldResourcesBeImported meta && IsNewResource (d s)
  then log s ++ [Get (resource_group_name (d s)) (server_name (d s))]
  else log s.

(** The payload CreateUpdate sends. *)
Definition payload (r : ResourceData) : postgresql.ServerAdministratorResource :=
  {| postgresql.Response := None;
     postgresql.ID := None;
     postgresql.Properties := Some
       {| postgresql.AdministratorType := Some "ActiveDirectory";
          postgresql.Login := Some (login r);
          postgresql.Sid := Some (FromStringOrNil meta (object_id r));
          postgresql.TenantID := Some (FromStringOrNil meta (tenant_id r)) |} |}.

End CreateUpdatePreconditions.

End postgres.

(** ** Relations between requests, responses and stored state *)

(** The block [b] holds what the permission [p] of a response holds: its
    actions and not-actions boxed in their order (a nil slice as the empty
    list), and two sets under the hash function [F] whose items are
    data-actions, respectively not-data-actions, of [p]. *)
Definition flattened_from (F : string -> Z) (p : authorization.Permission)
  (b : PermissionBlock) : Prop :=
  actions b = istr <$> default [] (authorization.Actions p)
  /\ not_actions b = istr <$> default [] (authorization.NotActions p)
  /\ Set_wf F (data_actions b)
  /\ Set_wf F (not_data_actions b)
  /\ (forall k v, data_actions b !! k = Some v -> v ∈ default [] (authorization.DataActions p))
  /\ (forall k v, not_data_actions b !! k = Some v ->
        v ∈ default [] (authorization.NotDataActions p)).

(** ** Concrete instances: mocked clients and stored states *)

Module demo.

(** Go's [strings.Split] for a non-empty separator; [skip] counts the
    characters of a matched separator still to drop. *)
Fixpoint Split_go (sep : string) (skip : nat) (s : string) : list string :=
  match s with
  | EmptyString => [""]
  | String a rest =>
      match skip with
      | S k => Split_go sep k rest
      | O =>
          if String.prefix sep s then "" :: Split_go sep (String.length sep - 1) rest
          else match Split_go sep 0 rest with
               | part :: parts => String a part :: parts
               | [] => [String a ""]
               end
      end
  end.

Definition Split (s sep : string) : list string := Split_go sep 0 s.

(** Modelled from the spec: [parse.RoleDefinitionId], which is not among the
    sources.  The stored identifier is ["<remote-resource-id>|<scope>"], and
    the role id is what follows ["roleDefinitions/"] in the remote resource
    id.  A rejected identifier gives the nil pointer and an error.  The
    theorems hold for every parser; this one serves the concrete
    instances. *)
Definition RoleDefinitionId (input : string) : option parse.RoleDefinitionID * option error :=
  match Split input "|" with
  | [resourceID; scope] =>
      match Split resourceID "roleDefinitions/" with
      | [_; roleID] =>
          (Some {| parse.ResourceID := resourceID; parse.Scope := scope;
                   parse.RoleID := roleID |}, None)
      | _ => (None, Some (Errorf "could not parse Role Definition ID, invalid format %q" [input]))
      end
  | _ => (None, Some (Errorf "could not parse Role Definition ID, invalid format %q" [input]))
  end.

(** A stand-in for [schema.HashString]. *)
Definition HashString (s : string) : Z := Z.of_nat (String.length s).

Definition not_found : error := ErrExternal "StatusCode=404 -- Original Error: not found".

Definition role_resource_id : string :=
  "/subscriptions/X/providers/Microsoft.Authorization/roleDefinitions/abc".

Definition role_id : parse.RoleDefinitionID :=
  {| parse.ResourceID := role_resource_id;
     parse.Scope := "/subscriptions/X";
     parse.RoleID := "abc" |}.

Definition role_data (id : string) : role_definition.ResourceData :=
  {| role_definition.Id := id;
     role_definition.IsNewResource := true;
     role_definition.role_definition_id := "abc";
     role_definition.name := "reader";
     role_definition.scope := "/subscriptions/X";
     role_definition.description := "";
     role_definition.permissions := [];
     role_definition.assignable_scopes :=
       [istr "/subscriptions/X"; istr "/subscriptions/Y"; istr "/subscriptions/X"];
     role_definition.role_definition_resource_id := "";
     role_definition.TimeoutUpdate := 1800 |}.

(** A stored role definition, and one whose identifier is malformed. *)
Definition role_state : role_definition.St :=
  {| d := role_data (role_resource_id +:+ "|/subscriptions/X"); log := []; now := 0 |}.

Definition role_state_malformed : role_definition.St :=
  {| d := role_data "garbage"; log := []; now := 0 |}.

Definition role_gone : authorization.RoleDefinition :=
  {| authorization.Response := Some 404;
     authorization.ID := None;
     authorization.Properties := None |}.

Definition role_found (id : option string) : authorization.RoleDefinition :=
  {| authorization.Response := Some 200;
     authorization.ID := id;
     authorization.Properties := None |}.

Definition role_read_properties (createdOn updatedOn : option string)
  : azuresdkhacks.RoleDefinitionProperties :=
  {| azuresdkhacks.RoleName := Some "reader";
     azuresdkhacks.Description := None;
     azuresdkhacks.RoleType := Some "CustomRole";
     azuresdkhacks.Permissions := None;
     azuresdkhacks.AssignableScopes := None;
     azuresdkhacks.CreatedOn := createdOn;
     azuresdkhacks.UpdatedOn := updatedOn |}.

Definition role_read (createdOn updatedOn : option string) : azuresdkhacks.RoleDefinition :=
  {| azuresdkhacks.Response := Some 200;
     azuresdkhacks.ID := Some role_resource_id;
     azuresdkhacks.Properties := Some (role_read_properties createdOn updatedOn) |}.

(** A mocked client from the replies of [Get] and of the workaround [Get]. *)
Definition role_meta
  (get : authorization.RoleDefinition * option error)
  (workaround_get : list role_definition.Call -> azuresdkhacks.RoleDefinition * option error)
  : role_definition.Meta :=
  {| role_definition.Get_reply := fun _ _ _ => get;
     role_definition.CreateOrUpdate_reply := fun _ _ _ _ => (role_found (Some role_resource_id), None);
     role_definition.Delete_reply := fun _ _ _ => get;
     role_definition.WorkaroundGet_reply := fun l _ _ => workaround_get l;
     role_definition.WorkaroundCreateOrUpdate_reply :=
       fun _ _ _ _ => (role_read (Some "t2") (Some "t2"), None);
     role_definition.RoleDefinitionId := RoleDefinitionId;
     role_definition.HashString := HashString;
     role_definition.GenerateUUID := ("6e4ed6c9-0c2b-4a8e-9d6e-0d7c1f5a2b11", None) |}.

(** The update marker is ["t2"].  The first two reads show the shadow copy,
    the later ones the reconciled object. *)
Definition settling (l : list role_definition.Call)
  : azuresdkhacks.RoleDefinition * option error :=
  if (length l <? 2)%nat then (role_read (Some "t2") (Some "t2"), None)
  else (role_read (Some "t1") (Some "t2"), None).

Definition meta_settling : role_definition.Meta := role_meta (role_gone, Some not_found) settling.

(** A read that lacks [updatedOn]. *)
Definition meta_no_UpdatedOn : role_definition.Meta :=
  role_meta (role_gone, Some not_found) (fun _ => (role_read (Some "t1") None, None)).

(** The role definition was deleted out-of-band. *)
Definition meta_gone : role_definition.Meta := role_meta (role_gone, Some not_found) settling.

(** The role definition exists remotely. *)
Definition meta_existing : role_definition.Meta :=
  role_meta (role_found (Some role_resource_id), None) settling.

(** Every fetch succeeds but carries no remote identifier. *)
Definition meta_no_ID : role_definition.Meta := role_meta (role_found None, None) settling.

(** A permission block with all four collections populated. *)
Definition permission_block : PermissionBlock :=
  {| actions := [istr "*/read"; istr "Microsoft.Compute/*/write"];
     not_actions := [istr "Microsoft.Authorization/*/write"];
     data_actions := {[ 4 := "a/rd"; 7 := "blob/rd" ]};
     not_data_actions := {[ 2 := "wr" ]} |}.

(** A stored administrator binding. *)
Definition admin_resource_id : string :=
  "/subscriptions/S/resourceGroups/rg/providers/Microsoft.DBforPostgreSQL/servers/srv/administrators/activeDirectory".

(** A stand-in for [azure.ParseAzureResourceID]: it knows the one identifier
    of the instances. *)
Definition ParseAzureResourceID (id : string) : option azure.ResourceID * option error :=
  if String.eqb id admin_resource_id then
    (Some {| azure.ResourceGroup := "rg"; azure.Path := {[ "servers" := "srv" ]} |}, None)
  else (None, Some (ErrExternal "cannot parse Azure ID")).

Definition admin_state : postgres.St :=
  {| d := {| postgres.Id := admin_resource_id;
             postgres.IsNewResource := true;
             postgres.server_name := "srv";
             postgres.resource_group_name := "rg";
             postgres.login := "admins";
             postgres.object_id := "2f8c9b1e-5d3a-4c47-8a61-9b0f6f2d7e10";
             postgres.tenant_id := "7b1d3c55-0e6f-4f0b-b1a9-3c8e5d2a4f90" |};
     log := []; now := 0 |}.

Definition admin_meta
  (get : postgresql.ServerAdministratorResource * option error) (delete : option error)
  : postgres.Meta :=
  {| postgres.Get_reply := fun _ _ _ => get;
     postgres.CreateOrUpdate_reply := fun _ _ _ _ => None;
     postgres.WaitForCompletionRef_reply := fun _ => None;
     postgres.Delete_reply := fun _ _ _ => delete;
     postgres.ParseAzureResourceID := ParseAzureResourceID;
     postgres.FromStringOrNil := fun s => s;
     postgres.ShouldResourcesBeImported := true |}.

Definition admin_response (status : Z) : postgresql.ServerAdministratorResource :=
  {| postgresql.Response := Some status;
     postgresql.ID := None;
     postgresql.Properties := None |}.

(** The binding was deleted out-of-band. *)
Definition admin_gone : postgres.Meta :=
  admin_meta (admin_response 404, Some not_found) (Some not_found).

(** Every fetch succeeds but carries no identifier. *)
Definition admin_no_ID : postgres.Meta := admin_meta (admin_response 200, None) None.

(** *** Further instances *)

Definition internal_error : error :=
  ErrExternal "StatusCode=500 -- Original Error: internal server error".

Definition role_failed : authorization.RoleDefinition :=
  {| authorization.Response := Some 500;
     authorization.ID := None;
     authorization.Properties := None |}.

(** A remote permission with a repeated data-action and two nil slices. *)
Definition remote_permission : authorization.Permission :=
  {| authorization.Actions := Some ["*/read"];
     authorization.NotActions := None;
     authorization.DataActions := Some ["a/rd"; "a/rd"];
     authorization.NotDataActions := None |}.

(** What Read stores for [remote_permission]. *)
Definition stored_blocks : list (option PermissionBlock) :=
  [Some {| actions := [istr "*/read"];
           not_actions := [];
           data_actions := {[ 4 := "a/rd" ]};
           not_data_actions := ∅ |}].

Definition role_stored_properties : authorization.RoleDefinitionProperties :=
  {| authorization.RoleName := Some "reader";
     authorization.Description := None;
     authorization.RoleType := Some "CustomRole";
     authorization.Permissions := Some [remote_permission];
     authorization.AssignableScopes := Some ["/subscriptions/X"; "/subscriptions/Y"] |}.

Definition role_stored : authorization.RoleDefinition :=
  {| authorization.Response := Some 200;
     authorization.ID := Some role_resource_id;
     authorization.Properties := Some role_stored_properties |}.

Definition is_upsert (c : role_definition.Call) : bool :=
  match c with
  | role_definition.CreateOrUpdate _ _ _ => true
  | _ => false
  end.

(** A mocked client from the replies of [Get], of the upsert and of the
    workaround upsert. *)
Definition role_meta_of
  (get : list role_definition.Call -> authorization.RoleDefinition * option error)
  (upsert : authorization.RoleDefinition * option error)
  (workaround_upsert : azuresdkhacks.RoleDefinition * option error)
  : role_definition.Meta :=
  {| role_definition.Get_reply := fun l _ _ => get l;
     role_definition.CreateOrUpdate_reply := fun _ _ _ _ => upsert;
     role_definition.Delete_reply := fun l _ _ => get l;
     role_definition.WorkaroundGet_reply := fun l _ _ => settling l;
     role_definition.WorkaroundCreateOrUpdate_reply := fun _ _ _ _ => workaround_upsert;
     role_definition.RoleDefinitionId := RoleDefinitionId;
     role_definition.HashString := HashString;
     role_definition.GenerateUUID := ("6e4ed6c9-0c2b-4a8e-9d6e-0d7c1f5a2b11", None) |}.

(** The role definition is stored remotely. *)
Definition meta_present : role_definition.Meta :=
  role_meta_of (fun _ => (role_stored, None)) (role_stored, None)
               (role_read (Some "t2") (Some "t2"), None).

(** Every call fails with an internal server error. *)
Definition meta_failing : role_definition.Meta :=
  role_meta_of (fun _ => (role_failed, Some internal_error)) (role_failed, Some internal_error)
               (role_read None None, Some internal_error).

(** The role definition appears with the upsert. *)
Definition meta_creating : role_definition.Meta :=
  role_meta_of (fun l => if existsb is_upsert l then (role_stored, None)
                         else (role_gone, Some not_found))
               (role_stored, None) (role_read (Some "t2") (Some "t2"), None).

(** Nothing exists and the upsert fails. *)
Definition meta_upsert_failing : role_definition.Meta :=
  role_meta_of (fun _ => (role_gone, Some not_found)) (role_failed, Some internal_error)
               (role_read None None, Some internal_error).

Definition admin_state_malformed : postgres.St :=
  {| d := {| postgres.Id := "garbage";
             postgres.IsNewResource := false;
             postgres.server_name := "srv";
             postgres.resource_group_name := "rg";
             postgres.login := "admins";
             postgres.object_id := "2f8c9b1e-5d3a-4c47-8a61-9b0f6f2d7e10";
             postgres.tenant_id := "7b1d3c55-0e6f-4f0b-b1a9-3c8e5d2a4f90" |};
     log := []; now := 0 |}.

Definition admin_stored_properties : postgresql.ServerAdministratorProperties :=
  {| postgresql.AdministratorType := Some "ActiveDirectory";
     postgresql.Login := Some "dba";
     postgresql.Sid := Some "2f8c9b1e-5d3a-4c47-8a61-9b0f6f2d7e10";
     postgresql.TenantID := Some "7b1d3c55-0e6f-4f0b-b1a9-3c8e5d2a4f90" |}.

Definition admin_stored : postgresql.ServerAdministratorResource :=
  {| postgresql.Response := Some 200;
     postgresql.ID := Some admin_resource_id;
     postgresql.Properties := Some admin_stored_properties |}.

Definition is_admin_upsert (c : postgres.Call) : bool :=
  match c with
  | postgres.CreateOrUpdate _ _ _ => true
  | _ => false
  end.

Definition admin_meta_of
  (get : list postgres.Call -> postgresql.ServerAdministratorResource * option error)
  (upsert : option error) (import : bool)
  (parser : string -> option azure.ResourceID * option error) : postgres.Meta :=
  {| postgres.Get_reply := fun l _ _ => get l;
     postgres.CreateOrUpdate_reply := fun _ _ _ _ => upsert;
     postgres.WaitForCompletionRef_reply := fun _ => None;
     postgres.Delete_reply := fun _ _ _ => None;
     postgres.ParseAzureResourceID := parser;
     postgres.FromStringOrNil := fun s => s;
     postgres.ShouldResourcesBeImported := import |}.

(** The binding is stored remotely. *)
Definition admin_present : postgres.Meta :=
  admin_meta_of (fun _ => (admin_stored, None)) None true ParseAzureResourceID.

(** The binding appears with the upsert. *)
Definition admin_creating : postgres.Meta :=
  admin_meta_of (fun l => if existsb is_admin_upsert l then (admin_stored, None)
                          else (admin_response 404, Some not_found))
                None true ParseAzureResourceID.

(** Import checking is disabled. *)
Definition admin_unchecked : postgres.Meta :=
  admin_meta_of (fun _ => (admin_stored, None)) None false ParseAzureResourceID.

(** Nothing exists and the upsert fails. *)
Definition admin_upsert_failing : postgres.Meta :=
  admin_meta_of (fun _ => (admin_response 404, Some not_found)) (Some internal_error) true
                ParseAzureResourceID.

(** The parser finds a resource group but no ["servers"] segment. *)
Definition admin_no_servers : postgres.Meta :=
  admin_meta_of (fun _ => (admin_response 404, Some not_found)) None true
                (fun _ => (Some {| azure.ResourceGroup := "rg"; azure.Path := ∅ |}, None)).

(** A permission block, all four collections populated, whose [actions]
    hold a nil entry. *)
Definition permission_block_nil_entry : PermissionBlock :=
  {| actions := [inil; istr "*/read"];
     not_actions := [istr "Microsoft.Authorization/*/write"];
     data_actions := {[ 4 := "a/rd" ]};
     not_data_actions := {[ 2 := "wr" ]} |}.

(** A stored role definition whose [assignable_scopes] hold a nil entry. *)
Definition role_state_nil_scope : role_definition.St :=
  {| d := role_definition.Set_assignable_scopes [istr "/subscriptions/Y"; inil]
            (d role_state);
     log := []; now := 0 |}.

End demo.

(** * Properties *)

(** ** Expanding and flattening *)

Section ExpandFlatten.
Implicit Types (l : list string) (m : schema_Set).

Lemma append_strings_boxed out l :
  append_strings out (istr <$> l) = out ++ l.
Proof.
  revert out. induction l as [|s l IH]; intros out; simpl.
  - by rewrite app_nil_r.
  - rewrite IH. by rewrite <- app_assoc.
Qed.

Lemma append_strings_Set_List m :
  append_strings [] (Set_List m) = (map_to_list m).*2.
Proof. unfold Set_List. by rewrite append_strings_boxed. Qed.

Lemma Set_add_fresh F m s :
  m !! Set_hash F s = None -> Set_add F m s = <[Set_hash F s := s]> m.
Proof. intros H. unfold Set_add. simpl. by rewrite H. Qed.

(** Adding items whose keys are pairwise distinct and free in [m] inserts
    each of them. *)
Lemma Set_add_all_distinct F (kvs : list (Z * string)) m :
  NoDup kvs.*1 ->
  (forall k v, (k, v) ∈ kvs -> k = Set_hash F v /\ m !! k = None) ->
  Set_add_all F m (istr <$> kvs.*2) = Some (list_to_map kvs ∪ m).
Proof.
  revert m. induction kvs as [|[k v] kvs IH]; intros m Hnd Hkv; simpl.
  - by rewrite (left_id_L ∅ (∪)).
  - apply NoDup_cons in Hnd as [Hk Hnd].
    destruct (Hkv k v) as [-> Hfree]; [left|].
    rewrite Set_add_fresh by done.
    rewrite IH; [|done|].
    + f_equal. rewrite <- insert_union_r, insert_union_l; [done|].
      by apply not_elem_of_list_to_map_1.
    + intros k' v' Hin. destruct (Hkv k' v') as [-> Hfree']; [by right|].
      split; [done|]. rewrite lookup_insert_ne; [done|].
      intros Heq. apply Hk. rewrite Heq. apply list_elem_of_fmap. by exists (Set_hash F v', v').
Qed.

(** Rebuilding a well-formed set from its own items gives the set back. *)
Lemma NewSet_Set_List F m :
  Set_wf F m -> NewSet F (Set_List m) = Some m.
Proof.
  intros Hwf. unfold NewSet, Set_List.
  rewrite Set_add_all_distinct.
  - by rewrite (right_id_L ∅ (∪)), list_to_map_to_list.
  - apply NoDup_fst_map_to_list.
  - intros k v Hin. apply elem_of_map_to_list in Hin. split; [by apply Hwf|apply lookup_empty].
Qed.

Lemma expandRoleDefinitionAssignableScopes_loop_boxed assignedScope scopes l :
  expandRoleDefinitionAssignableScopes_loop assignedScope scopes (istr <$> l)
  = Some (scopes ++ filter (fun s => s ≠ assignedScope) l).
Proof.
  revert scopes. induction l as [|s l IH]; intros scopes; simpl.
  - by rewrite app_nil_r.
  - rewrite filter_cons. destruct (String.eqb_spec s assignedScope) as [->|Hne]; simpl.
    + rewrite IH. by rewrite decide_False by (by intros []).
    + rewrite IH. rewrite decide_True by done. by rewrite <- app_assoc.
Qed.

End ExpandFlatten.

(** Expanding the assignable scopes of a configuration whose
    [assignable_scopes] entries are the strings [supplied] gives a list whose
    element 0 is the resource's own scope, in which the own scope does not
    occur again, and whose remaining elements are the supplied scopes other
    than the own scope, in their order. *)
Theorem expandRoleDefinitionAssignableScopes_own_scope_first
  (r : role_definition.ResourceData) (supplied : list string) :
  role_definition.assignable_scopes r = istr <$> supplied ->
  exists rest,
    role_definition.expandRoleDefinitionAssignableScopes r
      = Some (role_definition.scope r :: rest)
    /\ (role_definition.scope r :: rest) !! 0%nat = Some (role_definition.scope r)
    /\ (role_definition.scope r ∉ rest)
    /\ rest = filter (fun s => s ≠ role_definition.scope r) supplied.
Proof.
  intros Hsupplied. eexists. split; [|split; [done|split; [|done]]].
  - unfold role_definition.expandRoleDefinitionAssignableScopes.
    rewrite Hsupplied. apply expandRoleDefinitionAssignableScopes_loop_boxed.
  - intros Hin. by apply list_elem_of_filter in Hin as [Hne _].
Qed.

Section PermissionRoundTrip.
Variable F : string -> Z.

Lemma flattenPermission_expandPermission (raw : PermissionBlock) (la ln : list string) :
  actions raw = istr <$> la ->
  not_actions raw = istr <$> ln ->
  Set_wf F (data_actions raw) ->
  Set_wf F (not_data_actions raw) ->
  flattenPermission F (expandPermission raw) = Some raw.
Proof.
  destruct raw as [a n da nda]; simpl. intros -> -> Hda Hnda.
  unfold flattenPermission, expandPermission; simpl.
  rewrite !append_strings_boxed, !append_strings_Set_List; simpl.
  fold (Set_List da). fold (Set_List nda).
  by rewrite !NewSet_Set_List.
Qed.

(** For a permission block whose [actions] and [not_actions] hold the
    strings [la] and [ln] and whose two sets are sets under the hash function
    [F], flattening the expansion of the block gives one block with the same
    [actions] and [not_actions], in their order, and with [data_actions] and
    [not_data_actions] equal to the original sets. *)
Theorem flatten_expand_permission_roundtrip (raw : PermissionBlock) (la ln : list string) :
  actions raw = istr <$> la ->
  not_actions raw = istr <$> ln ->
  Set_wf F (data_actions raw) ->
  Set_wf F (not_data_actions raw) ->
  exists raw',
    flattenRoleDefinitionPermissions F (Some (expandRoleDefinitionPermissions [Some raw]))
      = Some [Some raw']
    /\ actions raw' = actions raw
    /\ not_actions raw' = not_actions raw
    /\ Set_Equal (data_actions raw') (data_actions raw) = true
    /\ Set_Equal (not_data_actions raw') (not_data_actions raw) = true.
Proof.
  intros Ha Hn Hda Hnda. exists raw.
  split; [|unfold Set_Equal; by rewrite !bool_decide_eq_true].
  unfold expandRoleDefinitionPermissions; simpl.
  by rewrite (flattenPermission_expandPermission raw la ln).
Qed.

End PermissionRoundTrip.

(** ** Running handlers *)

(** Unfolds the monad's operations in the goal. *)
Ltac run_monad :=
  unfold mbind, mret, M_bind, M_ret, bind, ret, throw, panic, deref,
    d_Get, d_Set, api_call, sleep, time_Now in *;
  simpl in *.

Lemma String_eqb_decide (a b : string) : String.eqb a b = bool_decide (a = b).
Proof.
  destruct (String.eqb_spec a b).
  - by rewrite bool_decide_eq_true_2.
  - by rewrite bool_decide_eq_false_2.
Qed.

(** ** The convergence poll's observation *)

Section Observation.
Import role_definition.
Variable meta : Meta.
Variable id : parse.RoleDefinitionID.
Variable expectedUpdateDate : string.

(** C1. When the fetch succeeds and the fetched object has properties and
    both timestamps, the observation is Pending if the remote createdOn equals
    the expected marker, else Pending if the remote updatedOn differs from the
    marker, else Updated; it carries no error. *)
Theorem roleDefinitionEventualConsistencyUpdate_transition
  (s : St) resp props (respCreatedOn respUpdatedOn : string) :
  WorkaroundGet_reply meta (log s) (parse.Scope id) (parse.RoleID id) = (resp, None) ->
  azuresdkhacks.Properties resp = Some props ->
  azuresdkhacks.CreatedOn props = Some respCreatedOn ->
  azuresdkhacks.UpdatedOn props = Some respUpdatedOn ->
  roleDefinitionEventualConsistencyUpdate meta id expectedUpdateDate s
  = Ok (resp,
        (if decide (respCreatedOn = expectedUpdateDate) then "Pending"
         else if decide (respUpdatedOn ≠ expectedUpdateDate) then "Pending"
         else "Updated"),
        None)
       (observed id s).
Proof.
  intros Hget Hprops Hcreated Hupdated.
  unfold roleDefinitionEventualConsistencyUpdate, workaround_Get. run_monad.
  rewrite Hget, Hprops, Hcreated, Hupdated.
  simpl. rewrite !String_eqb_decide.
  repeat case_bool_decide; repeat case_decide; simpl; done.
Qed.

(** C2, on the code: a fetched object whose createdOn is present and whose
    updatedOn is absent makes the observation panic on the dereference of
    [UpdatedOn]; no error is returned. *)
Theorem roleDefinitionEventualConsistencyUpdate_nil_UpdatedOn_panics
  (s : St) resp props (respCreatedOn : string) :
  WorkaroundGet_reply meta (log s) (parse.Scope id) (parse.RoleID id) = (resp, None) ->
  azuresdkhacks.Properties resp = Some props ->
  azuresdkhacks.CreatedOn props = Some respCreatedOn ->
  azuresdkhacks.UpdatedOn props = None ->
  roleDefinitionEventualConsistencyUpdate meta id expectedUpdateDate s = Panic.
Proof.
  intros Hget Hprops Hcreated Hupdated.
  unfold roleDefinitionEventualConsistencyUpdate, workaround_Get. run_monad.
  by rewrite Hget, Hprops, Hcreated, Hupdated.
Qed.

(** The other unreadable observations do return an error: a failed fetch,
    absent properties, an absent createdOn. *)
Lemma roleDefinitionEventualConsistencyUpdate_errors (s : St) resp err :
  WorkaroundGet_reply meta (log s) (parse.Scope id) (parse.RoleID id) = (resp, err) ->
  (is_Some err
   \/ azuresdkhacks.Properties resp = None
   \/ exists props, azuresdkhacks.Properties resp = Some props
                    /\ azuresdkhacks.CreatedOn props = None) ->
  exists e,
    roleDefinitionEventualConsistencyUpdate meta id expectedUpdateDate s
    = Ok (resp, "Failed", Some e) (observed id s).
Proof.
  intros Hget Hcase.
  unfold roleDefinitionEventualConsistencyUpdate, workaround_Get. run_monad.
  rewrite Hget. destruct err as [e|].
  { by exists e. }
  destruct Hcase as [[e He]|[Hp|(props & Hp & Hc)]]; [done| |].
  - rewrite Hp. by eexists.
  - rewrite Hp, Hc. by eexists.
Qed.

End Observation.

(** ** The convergence poll *)

Section PollRound.
Context {D C R : Type}.
Import resource.
Variable conf : StateChangeConf D C R.

(** One round of the poll whose observation carries no error. *)
Lemma WaitForState_loop_round deadline fuel occ last (s s1 : State D C) res st :
  now s < deadline ->
  Refresh conf s = Ok (res, st, None) s1 ->
  WaitForState_loop conf deadline (S fuel) occ last s
  = if bool_decide (st ∈ Target conf) then
      if ContinuousTargetOccurence conf =? occ + 1 then Ok (Some res, None) s1
      else WaitForState_loop conf deadline fuel (occ + 1) st
             {| d := d s1; log := log s1; now := now s1 + MinTimeout conf |}
    else if bool_decide (st ∈ Pending conf) then
      WaitForState_loop conf deadline fuel 0 st
        {| d := d s1; log := log s1; now := now s1 + MinTimeout conf |}
    else Ok (None, Some (UnexpectedStateError st (Target conf))) s1.
Proof.
  intros Hnow Href. simpl. run_monad.
  rewrite (proj2 (Z.leb_gt _ _) Hnow), Href.
  repeat case_bool_decide; try done.
  by destruct (_ =? _).
Qed.

(** A round that succeeds was taken before the deadline, on an observation
    without error. *)
Lemma WaitForState_loop_success_inv deadline fuel occ last (s s' : State D C) r :
  WaitForState_loop conf deadline fuel occ last s = Ok (r, None) s' ->
  exists fuel' res st s1,
    fuel = S fuel' /\ now s < deadline /\ Refresh conf s = Ok (res, st, None) s1.
Proof.
  destruct fuel as [|fuel']; simpl; run_monad; [done|].
  destruct (Z.leb_spec deadline (now s)); [done|].
  destruct (Refresh conf s) as [| |[[res st] [e|]] s1] eqn:Href; try done.
  intros _. by exists fuel', res, st, s1.
Qed.

End PollRound.

(** Reduces the fields of the update's [StateChangeConf]. *)
Ltac conf_fields :=
  cbn [resource.Target resource.Pending resource.ContinuousTargetOccurence
       resource.MinTimeout resource.Delay resource.Timeout resource.Refresh
       role_definition.stateConf role_definition.observed d log now] in *.

Section ConvergencePoll.
Import role_definition.
Variable meta : Meta.
Variable id : parse.RoleDefinitionID.
Variable expectedUpdateDate : string.
Variable timeout : Z.

Local Abbreviation refresh := (roleDefinitionEventualConsistencyUpdate meta id expectedUpdateDate).
Local Abbreviation conf := (stateConf meta id expectedUpdateDate timeout).
Local Abbreviation reply s := (WorkaroundGet_reply meta (log s) (parse.Scope id) (parse.RoleID id)).

(** The observation on a fetch that carries properties and both
    timestamps. *)
Lemma refresh_full_read (s : St) resp props (c u : string) :
  reply s = (resp, None) ->
  azuresdkhacks.Properties resp = Some props ->
  azuresdkhacks.CreatedOn props = Some c ->
  azuresdkhacks.UpdatedOn props = Some u ->
  refresh s
  = Ok (resp,
        (if decide (c = expectedUpdateDate) then "Pending"
         else if decide (u ≠ expectedUpdateDate) then "Pending"
         else "Updated"),
        None)
       (observed id s).
Proof.
  intros Hget Hprops Hc Hu.
  unfold roleDefinitionEventualConsistencyUpdate, workaround_Get. run_monad.
  rewrite Hget, Hprops, Hc, Hu. simpl. rewrite !String_eqb_decide.
  repeat case_bool_decide; repeat case_decide; simpl; done.
Qed.

Lemma refresh_shadow_copy (s : St) :
  shadow_copy expectedUpdateDate (reply s) ->
  exists resp, refresh s = Ok (resp, "Pending", None) (observed id s).
Proof.
  intros (resp & props & u & Hget & Hprops & Hc & Hu). exists resp.
  rewrite (refresh_full_read _ _ _ _ _ Hget Hprops Hc Hu).
  by rewrite decide_True.
Qed.

Lemma refresh_reconciled (s : St) :
  reconciled expectedUpdateDate (reply s) ->
  exists resp, refresh s = Ok (resp, "Updated", None) (observed id s).
Proof.
  intros (resp & props & c & Hget & Hprops & Hc & Hne & Hu). exists resp.
  rewrite (refresh_full_read _ _ _ _ _ Hget Hprops Hc Hu).
  rewrite decide_False by done. by rewrite decide_False by (by intros []).
Qed.

(** Every observation without error is Pending or Updated, and it is Updated
    exactly on a reconciled read. *)
Lemma refresh_no_error_inv (s s1 : St) resp st :
  refresh s = Ok (resp, st, None) s1 ->
  s1 = observed id s
  /\ ((st = "Pending" /\ ~ reconciled expectedUpdateDate (reply s))
      \/ (st = "Updated" /\ reconciled expectedUpdateDate (reply s))).
Proof.
  unfold roleDefinitionEventualConsistencyUpdate, workaround_Get. run_monad.
  destruct (reply s) as [resp0 [e|]] eqn:Hget; [done|].
  destruct (azuresdkhacks.Properties resp0) as [props|] eqn:Hprops; [|done].
  destruct (azuresdkhacks.CreatedOn props) as [c|] eqn:Hc; [|done].
  destruct (azuresdkhacks.UpdatedOn props) as [u|] eqn:Hu; [|done]. simpl.
  rewrite !String_eqb_decide.
  repeat case_bool_decide; simpl; intros [= <- <- <-]; (split; [done|]).
  - left. split; [done|]. intros (r & p & c' & [= <-] & Hp & Hc' & Hne & _). congruence.
  - right. split; [done|]. exists resp0, props, c. subst u. done.
  - left. split; [done|]. intros (r & p & c' & [= <-] & Hp & Hc' & Hne & Hu'). congruence.
Qed.

Lemma shadow_copy_not_reconciled r :
  shadow_copy expectedUpdateDate r -> ~ reconciled expectedUpdateDate r.
Proof.
  intros (resp & props & u & -> & Hp & Hc & _) (resp' & props' & c & [= <-] & Hp' & Hc' & Hne & _).
  congruence.
Qed.

Lemma log_polled (s : St) (i : nat) :
  log (polled id s i)
  = log s ++ replicate i (WorkaroundGet (parse.Scope id) (parse.RoleID id)).
Proof.
  revert s. induction i as [|i IH]; intros s; simpl.
  - by rewrite app_nil_r.
  - rewrite IH. simpl. by rewrite <- app_assoc.
Qed.

Lemma now_polled (s : St) (i : nat) :
  now (polled id s i) = now s + 10 * Z.of_nat i.
Proof.
  revert s. induction i as [|i IH]; intros s.
  - simpl. lia.
  - change (polled id s (S i)) with (polled id (next_round id s) i).
    rewrite IH. simpl. lia.
Qed.

(** Success of the loop: the last observation is number [j], at least
    [5 - occ] observations were taken, and the last five of them (those there
    are) were reconciled reads. *)
Lemma WaitForState_loop_success deadline fuel :
  forall occ last (s s' : St) r,
    0 <= occ < 5 ->
    resource.WaitForState_loop conf deadline fuel occ last s = Ok (r, None) s' ->
    exists j : nat,
      s' = observed id (polled id s j)
      /\ 5 - occ <= Z.of_nat j + 1
      /\ forall i : nat, (i <= j < i + 5)%nat ->
           reconciled expectedUpdateDate (reply_at meta id s i).
Proof.
  induction fuel as [|fuel IH]; intros occ last s s' r Hocc Hloop.
  { simpl in Hloop. run_monad. done. }
  destruct (WaitForState_loop_success_inv _ _ _ _ _ _ _ _ Hloop)
    as (fuel' & res & st & s1 & [= <-] & Hnow & Href).
  rewrite (WaitForState_loop_round conf _ _ _ _ _ _ _ _ Hnow Href) in Hloop.
  simpl in Href. apply refresh_no_error_inv in Href as [-> [[-> Hnot]|[-> Hrec]]];
    conf_fields.
  - (* Pending: the count starts again *)
    rewrite bool_decide_eq_false_2 in Hloop by (by intros ?%list_elem_of_singleton).
    rewrite bool_decide_eq_true_2 in Hloop by (by apply list_elem_of_singleton).
    apply IH in Hloop as (j & -> & Hj & Hlast); [|lia].
    exists (S j). split; [done|]. split; [lia|].
    intros [|i] Hi; [lia|]. apply (Hlast i). lia.
  - (* Updated *)
    rewrite bool_decide_eq_true_2 in Hloop by (by apply list_elem_of_singleton).
    destruct (Z.eqb_spec 5 (occ + 1)) as [Hfive|Hmore].
    + injection Hloop as <- <-. exists 0%nat. split; [done|]. split; [lia|].
      intros i Hi. by replace i with 0%nat by lia.
    + apply IH in Hloop as (j & -> & Hj & Hlast); [|lia].
      exists (S j). split; [done|]. split; [lia|].
      intros [|i] Hi; [done|]. apply (Hlast i). lia.
Qed.

(** [need] more reconciled reads in a row, taken in time, end the loop with
    success on the last of them. *)
Lemma WaitForState_loop_reconciled_run deadline (need : nat) :
  forall fuel occ last (s : St),
    occ = 4 - Z.of_nat need ->
    (need < fuel)%nat ->
    now s + 10 * Z.of_nat need < deadline ->
    (forall i : nat, (i <= need)%nat ->
       reconciled expectedUpdateDate (reply_at meta id s i)) ->
    exists res,
      resource.WaitForState_loop conf deadline fuel occ last s
      = Ok (Some res, None) (observed id (polled id s need)).
Proof.
  induction need as [|need IH]; intros fuel occ last s Hocc Hfuel Hnow Hrec;
    (destruct fuel as [|fuel]; [lia|]);
    destruct (refresh_reconciled s (Hrec 0%nat ltac:(lia))) as [resp Href].
  - exists resp.
    rewrite (WaitForState_loop_round conf _ _ _ _ _ (observed id s) resp "Updated");
      [|lia|done].
    conf_fields. rewrite bool_decide_eq_true_2 by (by apply list_elem_of_singleton).
    by rewrite (proj2 (Z.eqb_eq 5 (occ + 1))) by lia.
  - rewrite (WaitForState_loop_round conf _ _ _ _ _ (observed id s) resp "Updated");
      [|lia|done].
    conf_fields. rewrite bool_decide_eq_true_2 by (by apply list_elem_of_singleton).
    rewrite (proj2 (Z.eqb_neq 5 (occ + 1))) by lia.
    apply (IH fuel (occ + 1) "Updated" (next_round id s)); [lia|lia|simpl; lia|].
    intros i Hi. apply (Hrec (S i)). lia.
Qed.

(** [n] reads of the shadow copy followed by five reconciled reads, all taken
    in time, end the loop with success on observation number [n + 4]. *)
Lemma WaitForState_loop_shadow_run deadline (n : nat) :
  forall fuel last (s : St),
    (n + 4 < fuel)%nat ->
    now s + 10 * Z.of_nat (n + 4) < deadline ->
    (forall i : nat, (i < n)%nat -> shadow_copy expectedUpdateDate (reply_at meta id s i)) ->
    (forall i : nat, (n <= i < n + 5)%nat ->
       reconciled expectedUpdateDate (reply_at meta id s i)) ->
    exists res,
      resource.WaitForState_loop conf deadline fuel 0 last s
      = Ok (Some res, None) (observed id (polled id s (n + 4))).
Proof.
  induction n as [|n IH]; intros fuel last s Hfuel Hnow Hshadow Hrec.
  - apply WaitForState_loop_reconciled_run; [done|done|done|].
    intros i Hi. apply Hrec. lia.
  - destruct fuel as [|fuel]; [lia|].
    destruct (refresh_shadow_copy s (Hshadow 0%nat ltac:(lia))) as [resp Href].
    rewrite (WaitForState_loop_round conf _ _ _ _ _ (observed id s) resp "Pending");
      [|lia|done].
    conf_fields. rewrite bool_decide_eq_false_2 by (by intros ?%list_elem_of_singleton).
    rewrite bool_decide_eq_true_2 by (by apply list_elem_of_singleton).
    apply (IH fuel "Pending" (next_round id s)); [lia|simpl; lia| |].
    + intros i Hi. apply (Hshadow (S i)). lia.
    + intros i Hi. apply (Hrec (S i)). lia.
Qed.

Lemma WaitForState_unfold (s : St) :
  resource.WaitForState conf s
  = resource.WaitForState_loop conf (now s + timeout) (Z.to_nat timeout) 0 "" (delayed s).
Proof. done. Qed.

End ConvergencePoll.

(** The poll on its own.  Let the poll of the update start in [s], and let
    the first [N] mocked reads be reads of the shadow copy (createdOn equal to the expected
    updatedOn).  Then (a) whenever the poll ends without error it has taken
    [k >= N + 5] observations, ten seconds apart, and the last five of them
    were reconciled reads, that is, observed as Updated; and (b) when reads
    number [N+1] to [N+5] are reconciled and the timeout exceeds
    [10 * (N + 5)] seconds, the poll does end without error, on observation
    number [N + 5], [10 * (N + 5)] seconds after the call: four observations
    after the first Updated one. *)
Theorem WaitForState_five_consecutive_Updated
  (meta : role_definition.Meta) (id : parse.RoleDefinitionID)
  (expectedUpdateDate : string) (timeout : Z) (s : role_definition.St) (N : nat) :
  (forall i : nat, (i < N)%nat ->
     role_definition.shadow_copy expectedUpdateDate
       (role_definition.reply_at meta id (role_definition.delayed s) i)) ->
  (forall r s',
     resource.WaitForState (role_definition.stateConf meta id expectedUpdateDate timeout) s
     = Ok (r, None) s' ->
     exists k : nat,
       (N + 5 <= k)%nat
       /\ log s' = log s ++ replicate k (role_definition.WorkaroundGet (parse.Scope id) (parse.RoleID id))
       /\ now s' = now s + 10 * Z.of_nat k
       /\ forall i : nat, (k - 5 <= i < k)%nat ->
            role_definition.reconciled expectedUpdateDate
              (role_definition.reply_at meta id (role_definition.delayed s) i))
  /\ ((forall i : nat, (N <= i < N + 5)%nat ->
         role_definition.reconciled expectedUpdateDate
           (role_definition.reply_at meta id (role_definition.delayed s) i)) ->
      10 * Z.of_nat (N + 5) < timeout ->
      exists res s',
        resource.WaitForState (role_definition.stateConf meta id expectedUpdateDate timeout) s
        = Ok (Some res, None) s'
        /\ log s' = log s ++ replicate (N + 5) (role_definition.WorkaroundGet (parse.Scope id) (parse.RoleID id))
        /\ now s' = now s + 10 * Z.of_nat (N + 5)).
Proof.
  intros Hshadow. split.
  - intros r s' Hwait. rewrite WaitForState_unfold in Hwait.
    apply WaitForState_loop_success in Hwait as (j & -> & Hj & Hlast); [|lia].
    exists (S j). repeat split.
    + destruct (decide (N + 4 <= j)%nat) as [|Hearly]; [lia|].
      destruct (shadow_copy_not_reconciled expectedUpdateDate
                  (role_definition.reply_at meta id (role_definition.delayed s) (j - 4)));
        [apply Hshadow|apply Hlast]; lia.
    + conf_fields. rewrite log_polled. simpl.
      rewrite <- app_assoc. f_equal.
      change [?c] with (replicate 1 c). rewrite <- replicate_add.
      by rewrite Nat.add_comm.
    + conf_fields. rewrite now_polled. simpl. lia.
    + intros i Hi. apply Hlast. lia.
  - intros Hrec Htime. rewrite WaitForState_unfold.
    destruct (WaitForState_loop_shadow_run meta id expectedUpdateDate timeout
                (now s + timeout) N (Z.to_nat timeout) "" (role_definition.delayed s))
      as [res Hloop]; [lia|simpl; lia|done|done|].
    exists res, (role_definition.observed id
                   (role_definition.polled id (role_definition.delayed s) (N + 4))).
    split; [done|]. conf_fields. rewrite log_polled, now_polled. simpl.
    split; [|lia].
    rewrite <- app_assoc. f_equal.
    change [?c] with (replicate 1 c). rewrite <- replicate_add. f_equal. lia.
Qed.

(** ** The Role Definition handlers *)

Arguments role_definition.expandRoleDefinitionAssignableScopes : simpl never.
Arguments expandRoleDefinitionPermissions : simpl never.

Section RoleDefinitionHandlers.
Import role_definition.
Variable meta : Meta.

(** Read and Update return the parser's error at once, with no API call and
    no change of the resource data. *)
Lemma Read_Update_parse_error (s : St) p e :
  RoleDefinitionId meta (Id (d s)) = (p, Some e) ->
  resourceArmRoleDefinitionRead meta s = Fail e s
  /\ resourceArmRoleDefinitionUpdate meta s = Fail e s.
Proof.
  intros Hparse.
  unfold resourceArmRoleDefinitionRead, resourceArmRoleDefinitionUpdate. run_monad.
  by rewrite Hparse.
Qed.

(** C9, on the code.  For a stored identifier the parser rejects, Read and
    Update return the parse error before any API call.  Delete drops the
    error: with the nil identifier of a failed parse it panics on the
    dereference, and with a non-nil one it goes on to issue the delete
    call; in neither case does it return the parse error. *)
Theorem malformed_identifier_Read_Update_Delete (s : St) p e :
  RoleDefinitionId meta (Id (d s)) = (p, Some e) ->
  resourceArmRoleDefinitionRead meta s = Fail e s
  /\ resourceArmRoleDefinitionUpdate meta s = Fail e s
  /\ match p with
     | None => resourceArmRoleDefinitionDelete meta s = Panic
     | Some id =>
         exists s',
           log s' = log s ++ [Delete (parse.Scope id) (parse.RoleID id)]
           /\ (resourceArmRoleDefinitionDelete meta s = Ok tt s'
               \/ exists e', resourceArmRoleDefinitionDelete meta s = Fail e' s')
     end.
Proof.
  intros Hparse. destruct (Read_Update_parse_error s p e Hparse) as [HR HU].
  split; [done|]. split; [done|].
  unfold resourceArmRoleDefinitionDelete, client_Delete. run_monad. rewrite Hparse.
  destruct p as [id|]; [|done]. simpl.
  eexists {| d := d s; log := log s ++ [Delete (parse.Scope id) (parse.RoleID id)]; now := now s |}.
  split; [done|].
  destruct (Delete_reply meta (log s) (parse.Scope id) (parse.RoleID id)) as [resp [e'|]];
    [|by left].
  destruct (ResponseWasNotFound (authorization.Response resp)); simpl; [by left|right; by eexists].
Qed.

Lemma Read_not_found (s : St) id resp e :
  RoleDefinitionId meta (Id (d s)) = (Some id, None) ->
  Get_reply meta (log s) (parse.Scope id) (parse.RoleID id) = (resp, Some e) ->
  ResponseWasNotFound (authorization.Response resp) = true ->
  exists s',
    resourceArmRoleDefinitionRead meta s = Ok tt s'
    /\ Id (d s') = ""
    /\ log s' = log s ++ [Get (parse.Scope id) (parse.RoleID id)].
Proof.
  intros Hparse Hget Hnf.
  unfold resourceArmRoleDefinitionRead, client_Get. run_monad.
  rewrite Hparse. simpl. rewrite Hget, Hnf. simpl. by eexists.
Qed.

Lemma Delete_not_found (s : St) id perr resp e :
  RoleDefinitionId meta (Id (d s)) = (Some id, perr) ->
  Delete_reply meta (log s) (parse.Scope id) (parse.RoleID id) = (resp, Some e) ->
  ResponseWasNotFound (authorization.Response resp) = true ->
  resourceArmRoleDefinitionDelete meta s
  = Ok tt {| d := d s; log := log s ++ [Delete (parse.Scope id) (parse.RoleID id)]; now := now s |}.
Proof.
  intros Hparse Hdel Hnf.
  unfold resourceArmRoleDefinitionDelete, client_Delete. run_monad.
  rewrite Hparse. simpl. by rewrite Hdel, Hnf.
Qed.

(** The part of Create up to and including the pre-existence check. *)
Lemma expandRoleDefinitionAssignableScopes_boxed (r : ResourceData) supplied :
  assignable_scopes r = istr <$> supplied ->
  expandRoleDefinitionAssignableScopes r
  = Some (scope r :: filter (fun x => x ≠ scope r) supplied).
Proof.
  intros H. unfold expandRoleDefinitionAssignableScopes. rewrite H.
  apply expandRoleDefinitionAssignableScopes_loop_boxed.
Qed.

(** C6. Create of a new resource whose pre-existence fetch returns (without
    error, or with a not-found response) an object with a non-empty remote
    identifier fails with the already-exists error naming
    [<remote id>|<scope>]; the fetch is the only API call issued. *)
Theorem Create_existing_fails_with_ImportAsExistsError
  (s : St) roleID supplied existing err existingID :
  IsNewResource (d s) = true ->
  role_id_for_create meta (d s) roleID ->
  assignable_scopes (d s) = istr <$> supplied ->
  Get_reply meta (log s) (scope (d s)) roleID = (existing, err) ->
  err = None \/ ResponseWasNotFound (authorization.Response existing) = true ->
  authorization.ID existing = Some existingID ->
  existingID ≠ "" ->
  resourceArmRoleDefinitionCreate meta s
  = Fail (ImportAsExistsError "azurerm_role_definition" (existingID +:+ "|" +:+ scope (d s)))
         {| d := d s; log := log s ++ [Get (scope (d s)) roleID]; now := now s |}.
Proof.
  intros Hnew Hid Hscopes Hget Herr HID Hne.
  unfold resourceArmRoleDefinitionCreate, client_Get. run_monad.
  pose proof (expandRoleDefinitionAssignableScopes_boxed _ _ Hscopes) as Hexp.
  assert (String.eqb existingID "" = false) as Hneb by (by apply String.eqb_neq).
  destruct Hid as [[Hcfg Hnonempty]|[Hcfg Hgen]].
  - apply String.eqb_neq in Hnonempty. rewrite Hcfg, Hnonempty. simpl.
    rewrite Hexp. simpl. rewrite Hnew, Hget.
    destruct Herr as [->|Hnf]; [|destruct err; rewrite ?Hnf]; simpl; by rewrite HID, Hneb.
  - rewrite Hcfg. simpl. rewrite Hgen. simpl.
    rewrite Hexp. simpl. rewrite Hnew, Hget.
    destruct Herr as [->|Hnf]; [|destruct err; rewrite ?Hnf]; simpl; by rewrite HID, Hneb.
Qed.

(** Create, when the read after the upsert carries no remote identifier,
    returns an error. *)
Lemma Create_empty_read_ID (s : St) roleID supplied upserted read :
  role_id_for_create meta (d s) roleID ->
  assignable_scopes (d s) = istr <$> supplied ->
  nothing_exists meta s roleID ->
  let properties :=
    payload (d s) (scope (d s) :: filter (fun x => x ≠ scope (d s)) supplied) in
  let upsert := CreateOrUpdate (scope (d s)) roleID properties in
  CreateOrUpdate_reply meta (log_after_check s roleID) (scope (d s)) roleID properties
  = (upserted, None) ->
  Get_reply meta (log_after_check s roleID ++ [upsert]) (scope (d s)) roleID = (read, None) ->
  authorization.ID read = None \/ authorization.ID read = Some "" ->
  resourceArmRoleDefinitionCreate meta s
  = Fail (Errorf "Cannot read Role Definition ID for %q (Scope %q)" [name (d s); scope (d s)])
         {| d := d s;
            log := log_after_check s roleID ++ [upsert; Get (scope (d s)) roleID];
            now := now s |}.
Proof.
  intros Hid Hscopes Hcheck properties upsert Hupsert Hread HID.
  pose proof (expandRoleDefinitionAssignableScopes_boxed _ _ Hscopes) as Hexp.
  unfold resourceArmRoleDefinitionCreate, client_Get, client_CreateOrUpdate.
  subst properties upsert. unfold payload, log_after_check in *. run_monad.
  destruct Hid as [[Hcfg Hnonempty%String.eqb_neq]|[Hcfg Hgen]];
    rewrite Hcfg; rewrite ?Hnonempty; simpl; rewrite ?Hgen; simpl; rewrite Hexp; simpl.
  all: destruct Hcheck as [Hold|(Hnew & existing & err & Hget & Herr & HnoID)];
    [rewrite Hold in *
    |rewrite Hnew in *; rewrite Hget;
     (destruct Herr as [->|Hnf]; [|destruct err; rewrite ?Hnf]);
     simpl; (destruct HnoID as [->| ->]); simpl].
  all: rewrite Hupsert; simpl; rewrite Hread; simpl.
  all: rewrite <- ?app_assoc; simpl; by destruct HID as [->| ->].
Qed.

End RoleDefinitionHandlers.

(** ** The Administrator Binding handlers *)

Section AdministratorHandlers.
Import postgres.
Variable meta : Meta.

Lemma AdministratorRead_not_found (s : St) id resp e :
  ParseAzureResourceID meta (Id (d s)) = (Some id, None) ->
  Get_reply meta (log s) (azure.ResourceGroup id) (default "" (azure.Path id !! "servers"))
  = (resp, Some e) ->
  ResponseWasNotFound (postgresql.Response resp) = true ->
  exists s',
    resourceArmPostgreSQLAdministratorRead meta s = Ok tt s'
    /\ Id (d s') = ""
    /\ log s' = log s ++ [Get (azure.ResourceGroup id) (default "" (azure.Path id !! "servers"))].
Proof.
  intros Hparse Hget Hnf.
  unfold resourceArmPostgreSQLAdministratorRead, client_Get. run_monad.
  rewrite Hparse. simpl. rewrite Hget, Hnf. simpl. by eexists.
Qed.

(** Delete fails on every error of the delete call, whatever the response:
    it returns the error wrapped by [fmt.Errorf]. *)
Lemma AdministratorDelete_error (s : St) id e :
  ParseAzureResourceID meta (Id (d s)) = (Some id, None) ->
  Delete_reply meta (log s) (azure.ResourceGroup id) (default "" (azure.Path id !! "servers"))
  = Some e ->
  resourceArmPostgreSQLAdministratorDelete meta s
  = Fail (ErrorfV "Error deleting PostgreSQL AD Administrator: %+v" [] e)
         {| d := d s;
            log := log s ++ [Delete (azure.ResourceGroup id)
                                    (default "" (azure.Path id !! "servers"))];
            now := now s |}.
Proof.
  intros Hparse Hdel.
  unfold resourceArmPostgreSQLAdministratorDelete, client_Delete. run_monad.
  rewrite Hparse. simpl. by rewrite Hdel.
Qed.

(** CreateUpdate, when the re-fetch succeeds without an identifier, panics on
    the dereference of [resp.ID]. *)
Lemma AdministratorCreateUpdate_nil_ID (s : St) resp :
  nothing_exists meta s ->
  let rg := resource_group_name (d s) in
  let srv := server_name (d s) in
  let upsert := CreateOrUpdate rg srv (payload meta (d s)) in
  CreateOrUpdate_reply meta (log_after_check meta s) rg srv (payload meta (d s)) = None ->
  WaitForCompletionRef_reply meta (log_after_check meta s ++ [upsert]) = None ->
  Get_reply meta (log_after_check meta s ++ [upsert; WaitForCompletionRef]) rg srv
  = (resp, None) ->
  postgresql.ID resp = None ->
  resourceArmPostgreSQLAdministratorCreateUpdate meta s = Panic.
Proof.
  intros Hcheck rg srv upsert Hupsert Hwait Hget HID.
  unfold resourceArmPostgreSQLAdministratorCreateUpdate, client_Get, client_CreateOrUpdate,
    future_WaitForCompletionRef.
  subst rg srv upsert. unfold payload, log_after_check, nothing_exists in *. run_monad.
  destruct Hcheck as [Hold|(Hnew & existing & err & Hexisting & Herr & HnoID)];
    [rewrite Hold in *
    |rewrite Hnew in *; rewrite Hexisting;
     (destruct Herr as [->|Hnf]; [|destruct err; rewrite ?Hnf]);
     simpl; (destruct HnoID as [->| ->]); simpl].
  all: rewrite Hupsert; simpl; rewrite Hwait; simpl.
  all: rewrite <- ?app_assoc in *; simpl in *; rewrite Hget; simpl; by rewrite HID.
Qed.

End AdministratorHandlers.

(** ** Not-found on Read and Delete *)

(** C7. For both handlers, when the stored identifier parses and the fetch
    fails with a not-found response, Read returns no error and leaves the
    stored identifier empty. *)
Theorem Read_after_remote_deletion_clears_identifier
  (rmeta : role_definition.Meta) (rs : role_definition.St) rid rresp rerr
  (ameta : postgres.Meta) (ps : postgres.St) pid presp perr :
  role_definition.RoleDefinitionId rmeta (role_definition.Id (d rs)) = (Some rid, None) ->
  role_definition.Get_reply rmeta (log rs) (parse.Scope rid) (parse.RoleID rid)
  = (rresp, Some rerr) ->
  ResponseWasNotFound (authorization.Response rresp) = true ->
  postgres.ParseAzureResourceID ameta (postgres.Id (d ps)) = (Some pid, None) ->
  postgres.Get_reply ameta (log ps) (azure.ResourceGroup pid)
    (default "" (azure.Path pid !! "servers")) = (presp, Some perr) ->
  ResponseWasNotFound (postgresql.Response presp) = true ->
  (exists rs',
     role_definition.resourceArmRoleDefinitionRead rmeta rs = Ok tt rs'
     /\ role_definition.Id (d rs') = "")
  /\ (exists ps',
        postgres.resourceArmPostgreSQLAdministratorRead ameta ps = Ok tt ps'
        /\ postgres.Id (d ps') = "").
Proof.
  intros Hrparse Hrget Hrnf Hpparse Hpget Hpnf. split.
  - destruct (Read_not_found rmeta rs rid rresp rerr) as (rs' & ? & ? & _); eauto.
  - destruct (AdministratorRead_not_found ameta ps pid presp perr) as (ps' & ? & ? & _); eauto.
Qed.

(** C8, amended. Role Definition Delete returns no error when the delete
    call fails with a not-found response.  Administrator Binding Delete
    fails on every error [perr] of its delete call, not-found included: it
    returns [perr] wrapped by
    [fmt.Errorf("Error deleting PostgreSQL AD Administrator: %+v", perr)],
    whose root cause is that of [perr]. *)
Theorem Delete_not_found_tolerated_by_role_definition_only
  (rmeta : role_definition.Meta) (rs : role_definition.St) rid rparse_err rresp rerr
  (ameta : postgres.Meta) (ps : postgres.St) pid perr :
  role_definition.RoleDefinitionId rmeta (role_definition.Id (d rs)) = (Some rid, rparse_err) ->
  role_definition.Delete_reply rmeta (log rs) (parse.Scope rid) (parse.RoleID rid)
  = (rresp, Some rerr) ->
  ResponseWasNotFound (authorization.Response rresp) = true ->
  postgres.ParseAzureResourceID ameta (postgres.Id (d ps)) = (Some pid, None) ->
  postgres.Delete_reply ameta (log ps) (azure.ResourceGroup pid)
    (default "" (azure.Path pid !! "servers")) = Some perr ->
  (exists rs', role_definition.resourceArmRoleDefinitionDelete rmeta rs = Ok tt rs')
  /\ (exists e ps',
        postgres.resourceArmPostgreSQLAdministratorDelete ameta ps = Fail e ps'
        /\ e = ErrorfV "Error deleting PostgreSQL AD Administrator: %+v" [] perr
        /\ root_cause e = root_cause perr).
Proof.
  intros Hrparse Hrdel Hrnf Hpparse Hpdel. split.
  - eexists. by eapply Delete_not_found.
  - do 2 eexists. split; [by eapply AdministratorDelete_error|]. done.
Qed.

(** C8 as stated fails: on a not-found error of the delete call,
    Administrator Binding Delete returns another error than the one it
    received. *)
Lemma AdministratorDelete_does_not_return_error_unchanged :
  exists e,
    postgres.Delete_reply demo.admin_gone (log demo.admin_state) "rg" "srv"
    = Some demo.not_found
    /\ postgres.resourceArmPostgreSQLAdministratorDelete demo.admin_gone demo.admin_state
       = Fail e {| d := d demo.admin_state;
                   log := [postgres.Delete "rg" "srv"];
                   now := 0 |}
    /\ e ≠ demo.not_found.
Proof.
  exists (ErrorfV "Error deleting PostgreSQL AD Administrator: %+v" [] demo.not_found).
  split; [reflexivity|]. split; [by vm_compute|]. discriminate.
Qed.

(** ** A re-fetch without identifier *)

(** C10. When the re-fetch after the upsert succeeds but carries no
    identifier, Administrator Binding CreateUpdate panics on the dereference
    of [resp.ID] and returns no error, whereas Role Definition Create, on a
    nil or empty identifier, returns the error "Cannot read Role Definition
    ID". *)
Theorem CreateUpdate_nil_ID_panics_Create_returns_error
  (ameta : postgres.Meta) (ps : postgres.St) presp
  (rmeta : role_definition.Meta) (rs : role_definition.St) roleID supplied upserted read :
  let rg := postgres.resource_group_name (d ps) in
  let srv := postgres.server_name (d ps) in
  let pupsert := postgres.CreateOrUpdate rg srv (postgres.payload ameta (d ps)) in
  let scope := role_definition.scope (d rs) in
  let properties :=
    role_definition.payload (d rs) (scope :: filter (fun x => x ≠ scope) supplied) in
  let rupsert := role_definition.CreateOrUpdate scope roleID properties in
  postgres.nothing_exists ameta ps ->
  postgres.CreateOrUpdate_reply ameta (postgres.log_after_check ameta ps) rg srv
    (postgres.payload ameta (d ps)) = None ->
  postgres.WaitForCompletionRef_reply ameta (postgres.log_after_check ameta ps ++ [pupsert])
  = None ->
  postgres.Get_reply ameta
    (postgres.log_after_check ameta ps ++ [pupsert; postgres.WaitForCompletionRef]) rg srv
  = (presp, None) ->
  postgresql.ID presp = None ->
  role_definition.role_id_for_create rmeta (d rs) roleID ->
  role_definition.assignable_scopes (d rs) = istr <$> supplied ->
  role_definition.nothing_exists rmeta rs roleID ->
  role_definition.CreateOrUpdate_reply rmeta (role_definition.log_after_check rs roleID)
    scope roleID properties = (upserted, None) ->
  role_definition.Get_reply rmeta (role_definition.log_after_check rs roleID ++ [rupsert])
    scope roleID = (read, None) ->
  authorization.ID read = None \/ authorization.ID read = Some "" ->
  postgres.resourceArmPostgreSQLAdministratorCreateUpdate ameta ps = Panic
  /\ exists rs',
       role_definition.resourceArmRoleDefinitionCreate rmeta rs
       = Fail (Errorf "Cannot read Role Definition ID for %q (Scope %q)"
                      [role_definition.name (d rs); scope]) rs'.
Proof.
  intros rg srv pupsert scope properties rupsert
    Hpcheck Hpupsert Hpwait Hpget HpID Hid Hscopes Hrcheck Hrupsert Hrget HrID.
  split.
  - by eapply AdministratorCreateUpdate_nil_ID.
  - eexists. by eapply Create_empty_read_ID.
Qed.

(** * The properties at concrete instances *)

(** The third mocked read is of the reconciled object and is observed as
    Updated. *)
Lemma roleDefinitionEventualConsistencyUpdate_transition_witness :
  role_definition.roleDefinitionEventualConsistencyUpdate demo.meta_settling demo.role_id "t2"
    (role_definition.polled demo.role_id demo.role_state 2)
  = Ok (demo.role_read (Some "t1") (Some "t2"), "Updated", None)
       (role_definition.observed demo.role_id
          (role_definition.polled demo.role_id demo.role_state 2)).
Proof.
  apply (roleDefinitionEventualConsistencyUpdate_transition
           demo.meta_settling demo.role_id "t2"
           (role_definition.polled demo.role_id demo.role_state 2)
           (demo.role_read (Some "t1") (Some "t2"))
           (demo.role_read_properties (Some "t1") (Some "t2")) "t1" "t2"); reflexivity.
Defined.

(** A read without updatedOn makes the observation panic. *)
Lemma roleDefinitionEventualConsistencyUpdate_nil_UpdatedOn_panics_witness :
  role_definition.roleDefinitionEventualConsistencyUpdate
    demo.meta_no_UpdatedOn demo.role_id "t2" demo.role_state = Panic.
Proof.
  apply (roleDefinitionEventualConsistencyUpdate_nil_UpdatedOn_panics
           demo.meta_no_UpdatedOn demo.role_id "t2" demo.role_state
           (demo.role_read (Some "t1") None)
           (demo.role_read_properties (Some "t1") None) "t1"); reflexivity.
Defined.

(** Two reads of the shadow copy, then reconciled reads: the poll succeeds on
    the seventh observation, seventy seconds after the call. *)
Lemma WaitForState_five_consecutive_Updated_witness :
  exists res s',
    resource.WaitForState
      (role_definition.stateConf demo.meta_settling demo.role_id "t2" 1800) demo.role_state
    = Ok (Some res, None) s'
    /\ log s' = log demo.role_state
                ++ replicate (2 + 5) (role_definition.WorkaroundGet
                                        (parse.Scope demo.role_id) (parse.RoleID demo.role_id))
    /\ now s' = now demo.role_state + 10 * Z.of_nat (2 + 5).
Proof.
  assert (forall i : nat,
            role_definition.reply_at demo.meta_settling demo.role_id
              (role_definition.delayed demo.role_state) i
            = demo.settling (replicate i (role_definition.WorkaroundGet "/subscriptions/X" "abc")))
    as Hreply.
  { intros i. unfold role_definition.reply_at. by rewrite log_polled. }
  destruct (WaitForState_five_consecutive_Updated
              demo.meta_settling demo.role_id "t2" 1800 demo.role_state 2) as [_ Hlive].
  - intros i Hi. rewrite Hreply.
    destruct i as [|[|i]]; [| |lia];
      (eexists _, _, "t2"; repeat split; reflexivity).
  - apply Hlive; [|lia].
    intros i Hi. rewrite Hreply. unfold demo.settling. rewrite length_replicate.
    destruct (Nat.ltb_spec i 2) as [|_]; [lia|].
    eexists _, _, "t1". repeat split; done.
Defined.

Lemma expandRoleDefinitionAssignableScopes_own_scope_first_witness :
  role_definition.expandRoleDefinitionAssignableScopes (d demo.role_state)
  = Some ["/subscriptions/X"; "/subscriptions/Y"].
Proof.
  destruct (expandRoleDefinitionAssignableScopes_own_scope_first
              (d demo.role_state)
              ["/subscriptions/X"; "/subscriptions/Y"; "/subscriptions/X"] eq_refl)
    as (rest & Hexpand & _ & _ & Hrest).
  rewrite Hexpand, Hrest. reflexivity.
Defined.

Lemma flatten_expand_permission_roundtrip_witness :
  exists raw',
    flattenRoleDefinitionPermissions demo.HashString
      (Some (expandRoleDefinitionPermissions [Some demo.permission_block]))
    = Some [Some raw']
    /\ actions raw' = actions demo.permission_block
    /\ not_actions raw' = not_actions demo.permission_block
    /\ Set_Equal (data_actions raw') (data_actions demo.permission_block) = true
    /\ Set_Equal (not_data_actions raw') (not_data_actions demo.permission_block) = true.
Proof.
  apply (flatten_expand_permission_roundtrip demo.HashString demo.permission_block
           ["*/read"; "Microsoft.Compute/*/write"] ["Microsoft.Authorization/*/write"]).
  - reflexivity.
  - reflexivity.
  - intros k v H. simpl in H.
    apply lookup_insert_Some in H as [[<- <-]|[_ H]]; [reflexivity|].
    apply lookup_singleton_Some in H as [<- <-]. reflexivity.
  - intros k v H. simpl in H.
    apply lookup_singleton_Some in H as [<- <-]. reflexivity.
Defined.

Lemma Create_existing_fails_with_ImportAsExistsError_witness :
  role_definition.resourceArmRoleDefinitionCreate demo.meta_existing demo.role_state
  = Fail (ImportAsExistsError "azurerm_role_definition"
            (demo.role_resource_id +:+ "|" +:+ "/subscriptions/X"))
         {| d := d demo.role_state;
            log := [role_definition.Get "/subscriptions/X" "abc"];
            now := 0 |}.
Proof.
  apply (Create_existing_fails_with_ImportAsExistsError
           demo.meta_existing demo.role_state "abc"
           ["/subscriptions/X"; "/subscriptions/Y"; "/subscriptions/X"]
           (demo.role_found (Some demo.role_resource_id)) None demo.role_resource_id).
  - reflexivity.
  - left. split; [reflexivity|discriminate].
  - reflexivity.
  - reflexivity.
  - left. reflexivity.
  - reflexivity.
  - discriminate.
Defined.

Lemma Read_after_remote_deletion_clears_identifier_witness :
  (exists rs',
     role_definition.resourceArmRoleDefinitionRead demo.meta_gone demo.role_state = Ok tt rs'
     /\ role_definition.Id (d rs') = "")
  /\ (exists ps',
        postgres.resourceArmPostgreSQLAdministratorRead demo.admin_gone demo.admin_state
        = Ok tt ps'
        /\ postgres.Id (d ps') = "").
Proof.
  apply (Read_after_remote_deletion_clears_identifier
           demo.meta_gone demo.role_state demo.role_id demo.role_gone demo.not_found
           demo.admin_gone demo.admin_state
           {| azure.ResourceGroup := "rg"; azure.Path := {[ "servers" := "srv" ]} |}
           (demo.admin_response 404) demo.not_found); reflexivity.
Defined.

Lemma Delete_not_found_tolerated_by_role_definition_only_witness :
  (exists rs',
     role_definition.resourceArmRoleDefinitionDelete demo.meta_gone demo.role_state = Ok tt rs')
  /\ (exists e ps',
        postgres.resourceArmPostgreSQLAdministratorDelete demo.admin_gone demo.admin_state
        = Fail e ps'
        /\ e = ErrorfV "Error deleting PostgreSQL AD Administrator: %+v" [] demo.not_found
        /\ root_cause e = root_cause demo.not_found).
Proof.
  apply (Delete_not_found_tolerated_by_role_definition_only
           demo.meta_gone demo.role_state demo.role_id None demo.role_gone demo.not_found
           demo.admin_gone demo.admin_state
           {| azure.ResourceGroup := "rg"; azure.Path := {[ "servers" := "srv" ]} |}
           demo.not_found); reflexivity.
Defined.

(** The stored identifier ["garbage"] is rejected by the parser: Read and
    Update return its error, Delete panics. *)
Lemma malformed_identifier_Read_Update_Delete_witness :
  let e := Errorf "could not parse Role Definition ID, invalid format %q" ["garbage"] in
  role_definition.resourceArmRoleDefinitionRead demo.meta_gone demo.role_state_malformed
  = Fail e demo.role_state_malformed
  /\ role_definition.resourceArmRoleDefinitionUpdate demo.meta_gone demo.role_state_malformed
     = Fail e demo.role_state_malformed
  /\ role_definition.resourceArmRoleDefinitionDelete demo.meta_gone demo.role_state_malformed
     = Panic.
Proof.
  apply (malformed_identifier_Read_Update_Delete
           demo.meta_gone demo.role_state_malformed None
           (Errorf "could not parse Role Definition ID, invalid format %q" ["garbage"])).
  reflexivity.
Defined.

Lemma CreateUpdate_nil_ID_panics_Create_returns_error_witness :
  postgres.resourceArmPostgreSQLAdministratorCreateUpdate demo.admin_no_ID demo.admin_state
  = Panic
  /\ exists rs',
       role_definition.resourceArmRoleDefinitionCreate demo.meta_no_ID demo.role_state
       = Fail (Errorf "Cannot read Role Definition ID for %q (Scope %q)"
                      ["reader"; "/subscriptions/X"]) rs'.
Proof.
  apply (CreateUpdate_nil_ID_panics_Create_returns_error
           demo.admin_no_ID demo.admin_state (demo.admin_response 200)
           demo.meta_no_ID demo.role_state "abc"
           ["/subscriptions/X"; "/subscriptions/Y"; "/subscriptions/X"]
           (demo.role_found (Some demo.role_resource_id)) (demo.role_found None)).
  - right. split; [reflexivity|].
    exists (demo.admin_response 200), None. split; [reflexivity|]. split; by left.
  - reflexivity.
  - reflexivity.
  - reflexivity.
  - reflexivity.
  - left. split; [reflexivity|discriminate].
  - reflexivity.
  - right. split; [reflexivity|].
    exists (demo.role_found None), None. split; [reflexivity|]. split; by left.
  - reflexivity.
  - reflexivity.
  - by left.
Defined.

(** * Further properties of the code *)

(** ** Expanding *)

Section ExpandMore.

Lemma append_strings_omap out (l : list iface) :
  append_strings out l = out ++ omap assert_string l.
Proof.
  revert out. induction l as [|[|s] l IH]; intros out; simpl.
  - by rewrite app_nil_r.
  - apply IH.
  - rewrite IH. by rewrite <- app_assoc.
Qed.

Lemma expandRoleDefinitionPermissions_loop_omap output input :
  expandRoleDefinitionPermissions_loop output input
  = output ++ (expandPermission <$> omap id input).
Proof.
  revert output. induction input as [|[raw|] input IH]; intros output; simpl.
  - by rewrite app_nil_r.
  - rewrite IH. by rewrite <- app_assoc.
  - apply IH.
Qed.

Lemma expandRoleDefinitionPermissions_omap (input : list (option PermissionBlock)) :
  expandRoleDefinitionPermissions input = expandPermission <$> omap id input.
Proof.
  unfold expandRoleDefinitionPermissions. destruct input as [|v input]; [done|].
  change (length (v :: input) =? 0)%nat with false.
  cbv iota. by rewrite expandRoleDefinitionPermissions_loop_omap.
Qed.

Lemma omap_id_Some {A} (l : list A) : omap id (Some <$> l) = l.
Proof. induction l as [|a l IH]; simpl; [done|]. f_equal. exact IH. Qed.

(** X1. Expanding the permission blocks skips the nil entries of the list and
    expands the others one by one, in their order; the result has as many
    permissions as there are non-nil blocks. *)
Theorem expandRoleDefinitionPermissions_skips_nil_blocks (input : list (option PermissionBlock)) :
  expandRoleDefinitionPermissions input = expandPermission <$> omap id input
  /\ length (expandRoleDefinitionPermissions input) = length (omap id input).
Proof.
  pose proof (expandRoleDefinitionPermissions_omap input) as H.
  split; [done|]. by rewrite H, length_fmap.
Qed.

(** X2. An expanded permission never carries a nil slice: all four fields are
    set, also for empty collections.  Its actions and not-actions are the
    string entries of the block in their order, nil entries dropped; its
    data-actions and not-data-actions are exactly the items of the two
    sets. *)
Theorem expandPermission_fields (raw : PermissionBlock) :
  authorization.Actions (expandPermission raw) = Some (omap assert_string (actions raw))
  /\ authorization.NotActions (expandPermission raw)
     = Some (omap assert_string (not_actions raw))
  /\ (exists da,
        authorization.DataActions (expandPermission raw) = Some da
        /\ length da = size (data_actions raw)
        /\ forall x, x ∈ da <-> exists k, data_actions raw !! k = Some x)
  /\ (exists nda,
        authorization.NotDataActions (expandPermission raw) = Some nda
        /\ length nda = size (not_data_actions raw)
        /\ forall x, x ∈ nda <-> exists k, not_data_actions raw !! k = Some x).
Proof.
  assert (forall m : schema_Set,
            length (map_to_list m).*2 = size m
            /\ forall x, x ∈ (map_to_list m).*2 <-> exists k, m !! k = Some x) as Hitems.
  { intros m. split.
    - by rewrite length_fmap, length_map_to_list.
    - intros x. rewrite list_elem_of_fmap. split.
      + intros ([k v] & -> & Hin). exists k. by apply elem_of_map_to_list.
      + intros [k Hk]. exists (k, x). split; [done|]. by apply elem_of_map_to_list. }
  unfold expandPermission; simpl.
  rewrite !append_strings_Set_List, !append_strings_omap. simpl.
  split; [done|]. split; [done|].
  split; eexists; (split; [done|]); apply Hitems.
Qed.

Lemma expandRoleDefinitionAssignableScopes_loop_spec assignedScope scopes (l : list iface) :
  expandRoleDefinitionAssignableScopes_loop assignedScope scopes l
  = if decide (inil ∈ l) then None
    else Some (scopes ++ filter (fun s => s ≠ assignedScope) (omap assert_string l)).
Proof.
  revert scopes. induction l as [|[|s] l IH]; intros scopes;
    cbn [expandRoleDefinitionAssignableScopes_loop iface_neq_string assert_string
         omap list_omap].
  - rewrite decide_False by (by intros ?%elem_of_nil). by rewrite app_nil_r.
  - by rewrite decide_True by left.
  - rewrite filter_cons, String_eqb_decide, !IH.
    destruct (decide (inil ∈ l)) as [Hin|Hnin].
    + rewrite decide_True by (by right). by case_bool_decide.
    + rewrite decide_False by (by intros [?|?]%elem_of_cons).
      case_bool_decide as Heq; cbn [negb].
      * by rewrite decide_False by (by intros []).
      * rewrite decide_True by done. by rewrite <- app_assoc.
Qed.

(** X3. Expanding the assignable scopes panics exactly when
    [assignable_scopes] holds a nil entry: such an entry differs from the
    own scope, and its type assertion to a string fails. *)
Theorem expandRoleDefinitionAssignableScopes_panics_iff_nil_entry
  (r : role_definition.ResourceData) :
  role_definition.expandRoleDefinitionAssignableScopes r = None
  <-> inil ∈ role_definition.assignable_scopes r.
Proof.
  unfold role_definition.expandRoleDefinitionAssignableScopes.
  rewrite expandRoleDefinitionAssignableScopes_loop_spec.
  case_decide; naive_solver.
Qed.

Lemma flattenRoleDefinitionAssignableScopes_loop_boxed scopes (l : list string) :
  flattenRoleDefinitionAssignableScopes_loop scopes l = scopes ++ (istr <$> l).
Proof.
  revert scopes. induction l as [|s l IH]; intros scopes; simpl.
  - by rewrite app_nil_r.
  - rewrite IH. by rewrite <- app_assoc.
Qed.

(** X4. The list sent for a configuration is stable under a refresh: when
    the expanded list [out] comes back as the remote assignable scopes and is
    flattened into the state, expanding that state gives [out] again. *)
Theorem expandRoleDefinitionAssignableScopes_stable_under_refresh
  (r : role_definition.ResourceData) (out : list string) :
  role_definition.expandRoleDefinitionAssignableScopes r = Some out ->
  role_definition.expandRoleDefinitionAssignableScopes
    (role_definition.Set_assignable_scopes
       (flattenRoleDefinitionAssignableScopes (Some out)) r)
  = Some out.
Proof.
  unfold role_definition.expandRoleDefinitionAssignableScopes. simpl.
  rewrite flattenRoleDefinitionAssignableScopes_loop_boxed. simpl.
  rewrite expandRoleDefinitionAssignableScopes_loop_spec.
  case_decide; [done|]. intros [= <-].
  rewrite expandRoleDefinitionAssignableScopes_loop_boxed. simpl.
  rewrite filter_cons, decide_False by (by intros []).
  by rewrite list_filter_filter_l by done.
Qed.

End ExpandMore.

(** ** Flattening *)

Section FlattenMore.
Variable F : string -> Z.

Lemma Set_add_wf (m : schema_Set) (s : string) :
  Set_wf F m -> Set_wf F (Set_add F m s).
Proof.
  intros Hwf k v. unfold Set_add. simpl.
  destruct (m !! Set_hash F s) eqn:Hm; [apply Hwf|].
  intros [[<- <-]|[_ Hk]]%lookup_insert_Some; [done|by apply Hwf].
Qed.

Lemma Set_add_items (m : schema_Set) (s : string) k v :
  Set_add F m s !! k = Some v -> m !! k = Some v \/ v = s.
Proof.
  unfold Set_add. simpl.
  destruct (m !! Set_hash F s) eqn:Hm; [by left|].
  intros [[<- <-]|[_ Hk]]%lookup_insert_Some; [by right|by left].
Qed.

(** Building a set from boxed strings does not panic; the set is well-formed
    and its items are items of the start set or of the list. *)
Lemma Set_add_all_boxed (l : list string) :
  forall m : schema_Set,
    Set_wf F m ->
    exists m',
      Set_add_all F m (istr <$> l) = Some m'
      /\ Set_wf F m'
      /\ forall k v, m' !! k = Some v -> m !! k = Some v \/ v ∈ l.
Proof.
  induction l as [|s l IH]; intros m Hwf; simpl.
  - exists m. by eauto.
  - destruct (IH (Set_add F m s) (Set_add_wf m s Hwf)) as (m' & Hall & Hwf' & Hitems).
    exists m'. split; [done|]. split; [done|].
    intros k v Hk. destruct (Hitems k v Hk) as [Hadd|Hin]; [|right; by right].
    destruct (Set_add_items m s k v Hadd) as [?| ->]; [by left|right; left].
Qed.

Lemma FlattenStringSlice_boxed (input : option (list string)) :
  FlattenStringSlice input = istr <$> default [] input.
Proof. by destruct input. Qed.

Lemma flattenPermission_total (p : authorization.Permission) :
  exists b, flattenPermission F p = Some b /\ flattened_from F p b.
Proof.
  unfold flattenPermission, NewSet. rewrite !FlattenStringSlice_boxed.
  assert (Set_wf F (∅ : schema_Set)) as Hempty by (by intros k v ?%lookup_empty_Some).
  destruct (Set_add_all_boxed (default [] (authorization.DataActions p)) ∅ Hempty)
    as (da & -> & Hda & Hdain).
  destruct (Set_add_all_boxed (default [] (authorization.NotDataActions p)) ∅ Hempty)
    as (nda & -> & Hnda & Hndain).
  eexists. split; [done|]. repeat split; simpl; try done.
  - intros k v Hk. by destruct (Hdain k v Hk) as [?%lookup_empty_Some|?].
  - intros k v Hk. by destruct (Hndain k v Hk) as [?%lookup_empty_Some|?].
Qed.

Lemma flattenRoleDefinitionPermissions_loop_total (l : list authorization.Permission) :
  forall permissions,
    exists bs,
      flattenRoleDefinitionPermissions_loop F permissions l
      = Some (permissions ++ (Some <$> bs))
      /\ Forall2 (flattened_from F) l bs.
Proof.
  induction l as [|p l IH]; intros permissions; simpl.
  - exists []. by rewrite app_nil_r.
  - destruct (flattenPermission_total p) as (b & -> & Hb).
    destruct (IH (permissions ++ [Some b])) as (bs & -> & Hbs).
    exists (b :: bs). rewrite <- app_assoc. by split; [|constructor].
Qed.

Lemma flattenRoleDefinitionPermissions_shape
  (input : option (list authorization.Permission)) :
  exists bs,
    flattenRoleDefinitionPermissions F input = Some (Some <$> bs)
    /\ Forall2 (flattened_from F) (default [] input) bs.
Proof.
  destruct input as [l|]; simpl.
  - destruct (flattenRoleDefinitionPermissions_loop_total l []) as (bs & -> & Hbs).
    by exists bs.
  - exists []. by split; [|constructor].
Qed.

(** X5. Flattening the permissions of a response never panics.  It gives one
    non-nil block per permission, in order (none for a nil pointer); each
    block holds the permission's actions and not-actions boxed in their
    order, a nil slice as the empty list, and two well-formed sets whose
    items are data-actions, respectively not-data-actions, of the
    permission. *)
Theorem flattenRoleDefinitionPermissions_total
  (input : option (list authorization.Permission)) :
  exists bs,
    flattenRoleDefinitionPermissions F input = Some (Some <$> bs)
    /\ length bs = length (default [] input)
    /\ Forall2 (flattened_from F) (default [] input) bs.
Proof.
  destruct (flattenRoleDefinitionPermissions_shape input) as (bs & Hflat & Hbs).
  exists bs. split; [done|]. split; [|done]. symmetry. by eapply Forall2_length.
Qed.

Lemma flattenRoleDefinitionPermissions_loop_expand (bs : list PermissionBlock) :
  Forall (fun b => flattenPermission F (expandPermission b) = Some b) bs ->
  forall permissions,
    flattenRoleDefinitionPermissions_loop F permissions (expandPermission <$> bs)
    = Some (permissions ++ (Some <$> bs)).
Proof.
  induction 1 as [|b bs Hb _ IH]; intros permissions; simpl.
  - by rewrite app_nil_r.
  - rewrite Hb, IH. by rewrite <- app_assoc.
Qed.

Lemma flattened_blocks_roundtrip (l : list authorization.Permission) (bs : list PermissionBlock) :
  Forall2 (flattened_from F) l bs ->
  Forall (fun b => flattenPermission F (expandPermission b) = Some b) bs.
Proof.
  induction 1 as [|p b l bs (Ha & Hn & Hda & Hnda & _) _ IH]; constructor; [|done].
  by eapply flattenPermission_expandPermission.
Qed.

(** X6. What Read stores is stable: when [blocks] is the flattening of a
    response's permissions, expanding [blocks] for transmission and
    flattening the result gives [blocks] again. *)
Theorem flatten_expand_flatten_stable
  (input : option (list authorization.Permission)) (blocks : list (option PermissionBlock)) :
  flattenRoleDefinitionPermissions F input = Some blocks ->
  flattenRoleDefinitionPermissions F (Some (expandRoleDefinitionPermissions blocks))
  = Some blocks.
Proof.
  destruct (flattenRoleDefinitionPermissions_shape input) as (bs & -> & Hbs).
  intros [= <-].
  rewrite expandRoleDefinitionPermissions_omap, omap_id_Some.
  apply (flattenRoleDefinitionPermissions_loop_expand bs).
  by eapply flattened_blocks_roundtrip.
Qed.

End FlattenMore.

(** ** The poll's observation, in full *)

(** X7. Every observation of the convergence poll issues exactly one [Get]
    of the workaround client and leaves resource data and clock alone, and
    it never ends through the handler's error path.  It is Updated exactly
    on a reconciled read (createdOn differs from the marker and updatedOn
    equals it): a reconciled read is always observed as Updated, and a
    Pending or Failed observation is never of a reconciled read.  It
    carries an error exactly when its state is Failed, and it panics only on
    a read that has createdOn but lacks updatedOn. *)
Theorem roleDefinitionEventualConsistencyUpdate_outcomes
  (meta : role_definition.Meta) (id : parse.RoleDefinitionID)
  (expectedUpdateDate : string) (s : role_definition.St) :
  let reply :=
    role_definition.WorkaroundGet_reply meta (log s) (parse.Scope id) (parse.RoleID id) in
  let observation :=
    role_definition.roleDefinitionEventualConsistencyUpdate meta id expectedUpdateDate s in
  match observation with
  | Panic => role_definition.lacks_UpdatedOn reply
  | Fail _ _ => False
  | Ok (resp, state, err) s' =>
      s' = role_definition.observed id s
      /\ resp = reply.1
      /\ ((state = "Updated" /\ err = None
           /\ role_definition.reconciled expectedUpdateDate reply)
          \/ (state = "Pending" /\ err = None
              /\ ~ role_definition.reconciled expectedUpdateDate reply)
          \/ (state = "Failed" /\ is_Some err
              /\ ~ role_definition.reconciled expectedUpdateDate reply))
  end
  /\ (role_definition.reconciled expectedUpdateDate reply
      <-> observation = Ok (reply.1, "Updated", None) (role_definition.observed id s)).
Proof.
  intros reply observation. subst reply observation.
  assert (forall r : azuresdkhacks.RoleDefinition * option error,
            role_definition.reconciled expectedUpdateDate r ->
            exists resp props c,
              r = (resp, None) /\ azuresdkhacks.Properties resp = Some props
              /\ azuresdkhacks.CreatedOn props = Some c /\ c ≠ expectedUpdateDate
              /\ azuresdkhacks.UpdatedOn props = Some expectedUpdateDate) as Hrec by done.
  unfold role_definition.roleDefinitionEventualConsistencyUpdate, role_definition.workaround_Get.
  run_monad.
  destruct (role_definition.WorkaroundGet_reply meta (log s) (parse.Scope id) (parse.RoleID id))
    as [resp [e|]] eqn:Hget; simpl.
  { split.
    - split; [done|]. split; [done|]. right; right. split; [done|]. split; [by eauto|].
      by intros (? & ? & ? & [= _ ?] & _)%Hrec.
    - split; [|done]. by intros (? & ? & ? & [= _ ?] & _)%Hrec. }
  destruct (azuresdkhacks.Properties resp) as [props|] eqn:Hprops; simpl.
  2:{ split.
      - split; [done|]. split; [done|]. right; right. split; [done|]. split; [by eauto|].
        intros (? & ? & ? & [= <-] & ? & _)%Hrec. congruence.
      - split; [|done]. intros (? & ? & ? & [= <-] & ? & _)%Hrec. congruence. }
  destruct (azuresdkhacks.CreatedOn props) as [c|] eqn:Hc; simpl.
  2:{ split.
      - split; [done|]. split; [done|]. right; right. split; [done|]. split; [by eauto|].
        intros (? & ? & ? & [= <-] & ? & ? & _)%Hrec. congruence.
      - split; [|done]. intros (? & ? & ? & [= <-] & ? & ? & _)%Hrec. congruence. }
  destruct (azuresdkhacks.UpdatedOn props) as [u|] eqn:Hu; simpl.
  2:{ split.
      - by exists resp, props, c.
      - split; [|done]. intros (? & ? & ? & [= <-] & ? & ? & ? & ?)%Hrec. congruence. }
  rewrite !String_eqb_decide.
  assert (role_definition.reconciled expectedUpdateDate (resp, None)
          <-> c ≠ expectedUpdateDate /\ u = expectedUpdateDate) as Hiff.
  { split.
    - intros (? & ? & ? & [= <-] & ? & ? & ? & ?)%Hrec. split; congruence.
    - intros [Hne ->]. by exists resp, props, c. }
  repeat case_bool_decide; simpl.
  - split.
    + split; [done|]. split; [done|]. right; left. split; [done|]. split; [done|].
      rewrite Hiff. by intros [? _].
    + rewrite Hiff. split; [by intros [? _]|done].
  - split.
    + split; [done|]. split; [done|]. left. split; [done|]. split; [done|]. by apply Hiff.
    + rewrite Hiff. by split.
  - split.
    + split; [done|]. split; [done|]. right; left. split; [done|]. split; [done|].
      rewrite Hiff. by intros [_ ?].
    + rewrite Hiff. split; [by intros [_ ?]|done].
Qed.

(** ** More on the Role Definition handlers *)

Section RoleDefinitionMore.
Import role_definition.
Variable meta : Meta.

(** X8. Read of a role definition whose identifier parses and whose fetch
    succeeds returns no error and does not panic.  It keeps the stored
    identifier, takes scope, role id and resource id from the parsed
    identifier, and, when the response has properties, stores name and
    description (a nil pointer as the empty string), one block per remote
    permission and the remote assignable scopes boxed in their order;
    without properties these four fields stay as they were. *)
Theorem Read_success (s : St) id resp :
  RoleDefinitionId meta (Id (d s)) = (Some id, None) ->
  Get_reply meta (log s) (parse.Scope id) (parse.RoleID id) = (resp, None) ->
  exists s',
    resourceArmRoleDefinitionRead meta s = Ok tt s'
    /\ log s' = log s ++ [Get (parse.Scope id) (parse.RoleID id)]
    /\ now s' = now s
    /\ Id (d s') = Id (d s)
    /\ IsNewResource (d s') = IsNewResource (d s)
    /\ scope (d s') = parse.Scope id
    /\ role_definition_id (d s') = parse.RoleID id
    /\ role_definition_resource_id (d s') = parse.ResourceID id
    /\ match authorization.Properties resp with
       | Some props =>
           name (d s') = default "" (authorization.RoleName props)
           /\ description (d s') = default "" (authorization.Description props)
           /\ assignable_scopes (d s')
              = istr <$> default [] (authorization.AssignableScopes props)
           /\ exists bs,
                permissions (d s') = Some <$> bs
                /\ Forall2 (flattened_from (HashString meta))
                           (default [] (authorization.Permissions props)) bs
       | None =>
           name (d s') = name (d s)
           /\ description (d s') = description (d s)
           /\ assignable_scopes (d s') = assignable_scopes (d s)
           /\ permissions (d s') = permissions (d s)
       end.
Proof.
  intros Hparse Hget.
  unfold resourceArmRoleDefinitionRead, client_Get. run_monad.
  rewrite Hparse. simpl. rewrite Hget. simpl.
  destruct (authorization.Properties resp) as [props|]; simpl; [|by eexists].
  destruct (flattenRoleDefinitionPermissions_shape (HashString meta)
              (authorization.Permissions props)) as (bs & -> & Hbs).
  simpl. eexists. split; [done|]. simpl. repeat split; try done.
  - unfold flattenRoleDefinitionAssignableScopes.
    destruct (authorization.AssignableScopes props) as [l|]; [|done].
    by rewrite flattenRoleDefinitionAssignableScopes_loop_boxed.
  - by exists bs.
Qed.

(** X9. When the fetch of Read fails with anything but a not-found
    response, Read returns the error wrapped with the stored identifier and
    keeps that identifier; scope, role id and resource id have by then been
    overwritten from the parsed identifier. *)
Theorem Read_fetch_error (s : St) id resp e :
  RoleDefinitionId meta (Id (d s)) = (Some id, None) ->
  Get_reply meta (log s) (parse.Scope id) (parse.RoleID id) = (resp, Some e) ->
  ResponseWasNotFound (authorization.Response resp) = false ->
  exists s',
    resourceArmRoleDefinitionRead meta s
    = Fail (ErrorfV "Error loading Role Definition %q: %+v" [Id (d s)] e) s'
    /\ log s' = log s ++ [Get (parse.Scope id) (parse.RoleID id)]
    /\ d s' = Set_role_definition_resource_id (parse.ResourceID id)
                (Set_role_definition_id (parse.RoleID id)
                   (Set_scope (parse.Scope id) (d s))).
Proof.
  intros Hparse Hget Hnf.
  unfold resourceArmRoleDefinitionRead, client_Get. run_monad.
  rewrite Hparse. simpl. rewrite Hget, Hnf. simpl. by eexists.
Qed.

(** X10. Delete of a role definition whose identifier parses to a non-nil
    id issues exactly one delete call, at the parsed scope and role id, and
    never touches the resource data (the stored identifier is not cleared).
    It returns an error exactly when the call fails with a response other
    than not-found, and that error wraps the call's error. *)
Theorem Delete_outcome (s : St) id perr :
  RoleDefinitionId meta (Id (d s)) = (Some id, perr) ->
  let s' := {| d := d s;
               log := log s ++ [Delete (parse.Scope id) (parse.RoleID id)];
               now := now s |} in
  let reply := Delete_reply meta (log s) (parse.Scope id) (parse.RoleID id) in
  (resourceArmRoleDefinitionDelete meta s = Ok tt s'
   \/ exists e,
        reply.2 = Some e
        /\ ResponseWasNotFound (authorization.Response reply.1) = false
        /\ resourceArmRoleDefinitionDelete meta s
           = Fail (ErrorfV "deleting Role Definition %q at Scope %q: %+v"
                           [parse.RoleID id; parse.Scope id] e) s')
  /\ (resourceArmRoleDefinitionDelete meta s = Ok tt s'
      <-> reply.2 = None \/ ResponseWasNotFound (authorization.Response reply.1) = true).
Proof.
  intros Hparse s' reply. subst s' reply.
  unfold resourceArmRoleDefinitionDelete, client_Delete. run_monad.
  rewrite Hparse. simpl.
  destruct (Delete_reply meta (log s) (parse.Scope id) (parse.RoleID id)) as [resp [e|]];
    simpl; [|naive_solver].
  destruct (ResponseWasNotFound (authorization.Response resp)); simpl; [naive_solver|].
  split; [right; by exists e|].
  split; [done|]. by intros [?|?].
Qed.

(** X11. When the pre-existence fetch of Create fails with anything but a
    not-found response, Create returns an error that names the role and the
    scope but not the fetch's error, and issues no upsert. *)
Theorem Create_check_error (s : St) roleID supplied existing e :
  IsNewResource (d s) = true ->
  role_id_for_create meta (d s) roleID ->
  assignable_scopes (d s) = istr <$> supplied ->
  Get_reply meta (log s) (scope (d s)) roleID = (existing, Some e) ->
  ResponseWasNotFound (authorization.Response existing) = false ->
  resourceArmRoleDefinitionCreate meta s
  = Fail (Errorf "Error checking for presence of existing Role Definition ID for %q (Scope %q)"
                 [name (d s); scope (d s)])
         {| d := d s; log := log s ++ [Get (scope (d s)) roleID]; now := now s |}.
Proof.
  intros Hnew Hid Hscopes Hget Hnf.
  unfold resourceArmRoleDefinitionCreate, client_Get. run_monad.
  pose proof (expandRoleDefinitionAssignableScopes_boxed _ _ Hscopes) as Hexp.
  destruct Hid as [[Hcfg Hnonempty%String.eqb_neq]|[Hcfg Hgen]];
    rewrite Hcfg; rewrite ?Hnonempty; simpl; rewrite ?Hgen; simpl; rewrite Hexp; simpl;
    by rewrite Hnew, Hget, Hnf.
Qed.

(** X12. Create, once the pre-existence check finds nothing, the upsert
    succeeds and the read after it carries the non-empty remote identifier
    [readID], stores ["<readID>|<scope>"] as the identifier and ends as Read
    does from there.  The upsert sends the own scope first among the
    assignable scopes. *)
Theorem Create_success_continues_with_Read (s : St) roleID supplied upserted read readID :
  role_id_for_create meta (d s) roleID ->
  assignable_scopes (d s) = istr <$> supplied ->
  nothing_exists meta s roleID ->
  let properties :=
    payload (d s) (scope (d s) :: filter (fun x => x ≠ scope (d s)) supplied) in
  let upsert := CreateOrUpdate (scope (d s)) roleID properties in
  CreateOrUpdate_reply meta (log_after_check s roleID) (scope (d s)) roleID properties
  = (upserted, None) ->
  Get_reply meta (log_after_check s roleID ++ [upsert]) (scope (d s)) roleID = (read, None) ->
  authorization.ID read = Some readID ->
  readID ≠ "" ->
  resourceArmRoleDefinitionCreate meta s
  = resourceArmRoleDefinitionRead meta
      {| d := SetId (readID +:+ "|" +:+ scope (d s)) (d s);
         log := log_after_check s roleID ++ [upsert; Get (scope (d s)) roleID];
         now := now s |}.
Proof.
  intros Hid Hscopes Hcheck properties upsert Hupsert Hread HID Hne%String.eqb_neq.
  pose proof (expandRoleDefinitionAssignableScopes_boxed _ _ Hscopes) as Hexp.
  unfold resourceArmRoleDefinitionCreate, client_Get, client_CreateOrUpdate.
  subst properties upsert. unfold payload, log_after_check in *. run_monad.
  destruct Hid as [[Hcfg Hnonempty%String.eqb_neq]|[Hcfg Hgen]];
    rewrite Hcfg; rewrite ?Hnonempty; simpl; rewrite ?Hgen; simpl; rewrite Hexp; simpl.
  all: destruct Hcheck as [Hold|(Hnew & existing & err & Hget & Herr & HnoID)];
    [rewrite Hold in *
    |rewrite Hnew in *; rewrite Hget;
     (destruct Herr as [->|Hnf]; [|destruct err; rewrite ?Hnf]);
     simpl; (destruct HnoID as [->| ->]); simpl].
  all: rewrite Hupsert; simpl; rewrite Hread; simpl.
  all: rewrite HID, Hne; simpl; by rewrite <- ?app_assoc.
Qed.

(** X13. When the upsert of Create fails, Create returns the upsert's error
    as it is, without re-fetching and without storing an identifier. *)
Theorem Create_upsert_error (s : St) roleID supplied upserted e :
  role_id_for_create meta (d s) roleID ->
  assignable_scopes (d s) = istr <$> supplied ->
  nothing_exists meta s roleID ->
  let properties :=
    payload (d s) (scope (d s) :: filter (fun x => x ≠ scope (d s)) supplied) in
  CreateOrUpdate_reply meta (log_after_check s roleID) (scope (d s)) roleID properties
  = (upserted, Some e) ->
  resourceArmRoleDefinitionCreate meta s
  = Fail e {| d := d s;
              log := log_after_check s roleID
                     ++ [CreateOrUpdate (scope (d s)) roleID properties];
              now := now s |}.
Proof.
  intros Hid Hscopes Hcheck properties Hupsert.
  pose proof (expandRoleDefinitionAssignableScopes_boxed _ _ Hscopes) as Hexp.
  unfold resourceArmRoleDefinitionCreate, client_Get, client_CreateOrUpdate.
  subst properties. unfold payload, log_after_check in *. run_monad.
  destruct Hid as [[Hcfg Hnonempty%String.eqb_neq]|[Hcfg Hgen]];
    rewrite Hcfg; rewrite ?Hnonempty; simpl; rewrite ?Hgen; simpl; rewrite Hexp; simpl.
  all: destruct Hcheck as [Hold|(Hnew & existing & err & Hget & Herr & HnoID)];
    [rewrite Hold in *
    |rewrite Hnew in *; rewrite Hget;
     (destruct Herr as [->|Hnf]; [|destruct err; rewrite ?Hnf]);
     simpl; (destruct HnoID as [->| ->]); simpl].
  all: by rewrite Hupsert.
Qed.

(** X14. Update fails before any polling when its upsert fails, or succeeds
    without properties or without updatedOn: it returns the matching error,
    has issued the upsert only, and has neither waited nor changed the
    resource data. *)
Theorem Update_fails_before_polling (s : St) id supplied resp err :
  RoleDefinitionId meta (Id (d s)) = (Some id, None) ->
  assignable_scopes (d s) = istr <$> supplied ->
  let properties :=
    payload (d s) (scope (d s) :: filter (fun x => x ≠ scope (d s)) supplied) in
  WorkaroundCreateOrUpdate_reply meta (log s) (parse.Scope id) (parse.RoleID id) properties
  = (resp, err) ->
  (is_Some err
   \/ azuresdkhacks.Properties resp = None
   \/ exists props, azuresdkhacks.Properties resp = Some props
                    /\ azuresdkhacks.UpdatedOn props = None) ->
  resourceArmRoleDefinitionUpdate meta s
  = Fail
      match err with
      | Some e =>
          ErrorfV "updating Role Definition %q (Scope %q): %+v"
                  [parse.RoleID id; parse.Scope id] e
      | None =>
          match azuresdkhacks.Properties resp with
          | None =>
              Errorf "updating Role Definition %q (Scope %q): `properties` was nil"
                     [parse.RoleID id; parse.Scope id]
          | Some _ =>
              Errorf "updating Role Definition %q (Scope %q): `properties.UpdatedOn` was nil"
                     [parse.RoleID id; parse.Scope id]
          end
      end
      {| d := d s;
         log := log s ++ [WorkaroundCreateOrUpdate (parse.Scope id) (parse.RoleID id) properties];
         now := now s |}.
Proof.
  intros Hparse Hscopes properties Hupsert Hcase.
  pose proof (expandRoleDefinitionAssignableScopes_boxed _ _ Hscopes) as Hexp.
  unfold resourceArmRoleDefinitionUpdate, workaround_CreateOrUpdate.
  subst properties. unfold payload in *. run_monad.
  rewrite Hparse. simpl. rewrite Hexp. simpl. rewrite Hupsert.
  destruct err as [e|]; [done|].
  destruct Hcase as [[e He]|[Hp|(props & Hp & Hu)]]; [done| |].
  - by rewrite Hp.
  - by rewrite Hp, Hu.
Qed.

End RoleDefinitionMore.

(** ** More on the Administrator Binding handlers *)

Section AdministratorMore.
Import postgres.
Variable meta : Meta.

(** X15. With import checking enabled, CreateUpdate of a new resource whose
    pre-existence fetch returns (without error, or with a not-found
    response) a non-empty identifier fails with the already-exists error
    naming that identifier alone; the fetch is the only API call issued. *)
Theorem AdministratorCreateUpdate_existing (s : St) existing err existingID :
  ShouldResourcesBeImported meta = true ->
  IsNewResource (d s) = true ->
  Get_reply meta (log s) (resource_group_name (d s)) (server_name (d s)) = (existing, err) ->
  err = None \/ ResponseWasNotFound (postgresql.Response existing) = true ->
  postgresql.ID existing = Some existingID ->
  existingID ≠ "" ->
  resourceArmPostgreSQLAdministratorCreateUpdate meta s
  = Fail (ImportAsExistsError "azurerm_postgresql_active_directory_administrator" existingID)
         {| d := d s;
            log := log s ++ [Get (resource_group_name (d s)) (server_name (d s))];
            now := now s |}.
Proof.
  intros Himport Hnew Hget Herr HID Hne%String.eqb_neq.
  unfold resourceArmPostgreSQLAdministratorCreateUpdate, client_Get. run_monad.
  rewrite Himport, Hnew. simpl. rewrite Hget.
  destruct Herr as [->|Hnf]; [|destruct err; rewrite ?Hnf]; simpl; by rewrite HID, Hne.
Qed.

(** X16. With import checking disabled, or for a resource that is not new,
    CreateUpdate never fetches before it writes: whatever the replies, the
    first call it issues is the upsert with the configured login, principal
    and tenant.  A run that returns has a call log that continues the
    original one with that upsert; a run that panics has issued the upsert,
    the wait and the re-fetch in that order, all three without error, and
    panics on the nil identifier of the re-fetched response, and on such
    replies the run does panic. *)
Theorem AdministratorCreateUpdate_unchecked_upsert_first (s : St) :
  ShouldResourcesBeImported meta && IsNewResource (d s) = false ->
  let resGroup := resource_group_name (d s) in
  let serverName := server_name (d s) in
  let first := CreateOrUpdate resGroup serverName (payload meta (d s)) in
  let nil_ID_after_upsert :=
    CreateOrUpdate_reply meta (log s) resGroup serverName (payload meta (d s)) = None
    /\ WaitForCompletionRef_reply meta (log s ++ [first]) = None
    /\ exists resp,
         Get_reply meta (log s ++ [first; WaitForCompletionRef]) resGroup serverName
         = (resp, None)
         /\ postgresql.ID resp = None in
  match resourceArmPostgreSQLAdministratorCreateUpdate meta s with
  | Panic => nil_ID_after_upsert
  | Fail _ s' | Ok _ s' => exists rest, log s' = log s ++ first :: rest
  end
  /\ (nil_ID_after_upsert -> resourceArmPostgreSQLAdministratorCreateUpdate meta s = Panic).
Proof.
  intros Hcheck resGroup serverName first nil_ID. subst resGroup serverName first nil_ID.
  unfold resourceArmPostgreSQLAdministratorCreateUpdate, client_Get, client_CreateOrUpdate,
    future_WaitForCompletionRef, payload. run_monad.
  rewrite Hcheck. simpl.
  destruct (CreateOrUpdate_reply _ _ _ _ _) as [e|] eqn:Hupsert; simpl.
  { split; [by exists []|]. by intros [? _]. }
  destruct (WaitForCompletionRef_reply _ _) as [e|] eqn:Hwait; simpl.
  { split; [eexists; by rewrite <- app_assoc|]. by intros (_ & ? & _). }
  rewrite <- app_assoc. simpl.
  destruct (Get_reply _ _ _ _) as [resp [e|]] eqn:Hget; simpl.
  { split; [eexists; by rewrite <- !app_assoc|]. by intros (_ & _ & ? & [= _ ?] & _). }
  destruct (postgresql.ID resp) eqn:HID; simpl.
  - split; [eexists; by rewrite <- !app_assoc|].
    intros (_ & _ & ? & [= <-] & ?). congruence.
  - split; [|done]. split; [done|]. split; [done|]. by exists resp.
Qed.

(** X17. CreateUpdate, when the import check finds nothing and upsert, wait
    and re-fetch succeed, stores the identifier of the re-fetch as it is (an
    empty one too), returns no error and leaves every other field of the
    resource data as configured: it does not read the binding back. *)
Theorem AdministratorCreateUpdate_success (s : St) resp respID :
  nothing_exists meta s ->
  let rg := resource_group_name (d s) in
  let srv := server_name (d s) in
  let upsert := CreateOrUpdate rg srv (payload meta (d s)) in
  CreateOrUpdate_reply meta (log_after_check meta s) rg srv (payload meta (d s)) = None ->
  WaitForCompletionRef_reply meta (log_after_check meta s ++ [upsert]) = None ->
  Get_reply meta (log_after_check meta s ++ [upsert; WaitForCompletionRef]) rg srv
  = (resp, None) ->
  postgresql.ID resp = Some respID ->
  resourceArmPostgreSQLAdministratorCreateUpdate meta s
  = Ok tt {| d := SetId respID (d s);
             log := log_after_check meta s ++ [upsert; WaitForCompletionRef; Get rg srv];
             now := now s |}.
Proof.
  intros Hcheck rg srv upsert Hupsert Hwait Hget HID.
  unfold resourceArmPostgreSQLAdministratorCreateUpdate, client_Get, client_CreateOrUpdate,
    future_WaitForCompletionRef.
  subst rg srv upsert. unfold payload, log_after_check, nothing_exists in *. run_monad.
  destruct Hcheck as [Hold|(Hnew & existing & err & Hexisting & Herr & HnoID)];
    [rewrite Hold in *
    |rewrite Hnew in *; rewrite Hexisting;
     (destruct Herr as [->|Hnf]; [|destruct err; rewrite ?Hnf]);
     simpl; (destruct HnoID as [->| ->]); simpl].
  all: rewrite Hupsert; simpl; rewrite Hwait; simpl.
  all: rewrite <- ?app_assoc in *; simpl in *; rewrite Hget; simpl; by rewrite HID.
Qed.

(** X18. An error of the upsert, of the wait on its future, or of the
    re-fetch ends CreateUpdate at that call: the error is returned wrapped
    with resource group and server, no later call is issued and the stored
    identifier is not changed. *)
Theorem AdministratorCreateUpdate_errors (s : St) e :
  nothing_exists meta s ->
  let rg := resource_group_name (d s) in
  let srv := server_name (d s) in
  let upsert := CreateOrUpdate rg srv (payload meta (d s)) in
  let l := log_after_check meta s in
  (CreateOrUpdate_reply meta l rg srv (payload meta (d s)) = Some e ->
   resourceArmPostgreSQLAdministratorCreateUpdate meta s
   = Fail (ErrorfV "Error issuing create/update request for PostgreSQL AD Administrator (Resource Group %q, Server %q): %+v"
                   [rg; srv] e)
          {| d := d s; log := l ++ [upsert]; now := now s |})
  /\ (CreateOrUpdate_reply meta l rg srv (payload meta (d s)) = None ->
      WaitForCompletionRef_reply meta (l ++ [upsert]) = Some e ->
      resourceArmPostgreSQLAdministratorCreateUpdate meta s
      = Fail (ErrorfV "Error waiting on create/update future for PostgreSQL AD Administrator (Resource Group %q, Server %q): %+v"
                      [rg; srv] e)
             {| d := d s; log := l ++ [upsert; WaitForCompletionRef]; now := now s |})
  /\ (forall resp,
        CreateOrUpdate_reply meta l rg srv (payload meta (d s)) = None ->
        WaitForCompletionRef_reply meta (l ++ [upsert]) = None ->
        Get_reply meta (l ++ [upsert; WaitForCompletionRef]) rg srv = (resp, Some e) ->
        resourceArmPostgreSQLAdministratorCreateUpdate meta s
        = Fail (ErrorfV "Error issuing get request for PostgreSQL AD Administrator (Resource Group %q, Server %q): %+v"
                        [rg; srv] e)
               {| d := d s;
                  log := l ++ [upsert; WaitForCompletionRef; Get rg srv];
                  now := now s |}).
Proof.
  intros Hcheck rg srv upsert l.
  unfold resourceArmPostgreSQLAdministratorCreateUpdate, client_Get, client_CreateOrUpdate,
    future_WaitForCompletionRef.
  subst rg srv upsert l. unfold payload, log_after_check, nothing_exists in *. run_monad.
  destruct Hcheck as [Hold|(Hnew & existing & err & Hexisting & Herr & HnoID)];
    [rewrite Hold in *
    |rewrite Hnew in *; rewrite Hexisting;
     (destruct Herr as [->|Hnf]; [|destruct err; rewrite ?Hnf]);
     simpl; (destruct HnoID as [->| ->]); simpl].
  all: split; [intros Hupsert; by rewrite Hupsert|].
  all: split; [intros Hupsert Hwait; rewrite Hupsert; simpl; rewrite Hwait; simpl;
               by rewrite <- ?app_assoc|].
  all: intros resp Hupsert Hwait Hget; rewrite Hupsert; simpl; rewrite Hwait; simpl.
  all: rewrite <- ?app_assoc in *; simpl in *; by rewrite Hget.
Qed.

(** X19. Read of a binding whose identifier parses and whose fetch returns
    properties with principal and tenant identifiers returns no error,
    keeps the stored identifier, takes resource group and server from the
    parsed identifier and login, principal and tenant from the response (a
    nil login as the empty string). *)
Theorem AdministratorRead_success (s : St) id resp props sid tenantID :
  ParseAzureResourceID meta (Id (d s)) = (Some id, None) ->
  let rg := azure.ResourceGroup id in
  let srv := default "" (azure.Path id !! "servers") in
  Get_reply meta (log s) rg srv = (resp, None) ->
  postgresql.Properties resp = Some props ->
  postgresql.Sid props = Some sid ->
  postgresql.TenantID props = Some tenantID ->
  resourceArmPostgreSQLAdministratorRead meta s
  = Ok tt {| d := {| Id := Id (d s);
                     IsNewResource := IsNewResource (d s);
                     server_name := srv;
                     resource_group_name := rg;
                     login := default "" (postgresql.Login props);
                     object_id := sid;
                     tenant_id := tenantID |};
             log := log s ++ [Get rg srv];
             now := now s |}.
Proof.
  intros Hparse rg srv Hget Hprops Hsid Htenant. subst rg srv.
  unfold resourceArmPostgreSQLAdministratorRead, client_Get. run_monad.
  rewrite Hparse. simpl. rewrite Hget. simpl.
  rewrite Hprops. simpl. rewrite Hsid. simpl. by rewrite Htenant.
Qed.

(** X20. Read of a binding panics when the fetch succeeds but the response
    lacks its properties, its principal identifier or its tenant
    identifier: the fields are read through the nil pointer. *)
Theorem AdministratorRead_nil_field_panics (s : St) id resp :
  ParseAzureResourceID meta (Id (d s)) = (Some id, None) ->
  Get_reply meta (log s) (azure.ResourceGroup id) (default "" (azure.Path id !! "servers"))
  = (resp, None) ->
  (postgresql.Properties resp = None
   \/ exists props,
        postgresql.Properties resp = Some props
        /\ (postgresql.Sid props = None \/ postgresql.TenantID props = None)) ->
  resourceArmPostgreSQLAdministratorRead meta s = Panic.
Proof.
  intros Hparse Hget Hnil.
  unfold resourceArmPostgreSQLAdministratorRead, client_Get. run_monad.
  rewrite Hparse. simpl. rewrite Hget. simpl.
  destruct Hnil as [->|(props & -> & [Hsid|Htenant])]; simpl; [done| |].
  - by rewrite Hsid.
  - destruct (postgresql.Sid props); simpl; [|done]. by rewrite Htenant.
Qed.

(** X21. For a stored identifier the parser rejects, Read and Delete of a
    binding both return the parser's error at once, with no API call and no
    change of the resource data. *)
Theorem Administrator_parse_error (s : St) p e :
  ParseAzureResourceID meta (Id (d s)) = (p, Some e) ->
  resourceArmPostgreSQLAdministratorRead meta s = Fail e s
  /\ resourceArmPostgreSQLAdministratorDelete meta s = Fail e s.
Proof.
  intros Hparse.
  unfold resourceArmPostgreSQLAdministratorRead,
    resourceArmPostgreSQLAdministratorDelete. run_monad.
  by rewrite Hparse.
Qed.

(** X22. Delete of a binding whose identifier parses issues exactly one
    delete call and returns without waiting on its future; it returns no
    error exactly when the call returned none, and it never touches the
    resource data (the stored identifier is not cleared). *)
Theorem AdministratorDelete_outcome (s : St) id :
  ParseAzureResourceID meta (Id (d s)) = (Some id, None) ->
  let rg := azure.ResourceGroup id in
  let srv := default "" (azure.Path id !! "servers") in
  let s' := {| d := d s; log := log s ++ [Delete rg srv]; now := now s |} in
  (resourceArmPostgreSQLAdministratorDelete meta s = Ok tt s'
   \/ exists e, resourceArmPostgreSQLAdministratorDelete meta s = Fail e s')
  /\ (resourceArmPostgreSQLAdministratorDelete meta s = Ok tt s'
      <-> Delete_reply meta (log s) rg srv = None).
Proof.
  intros Hparse rg srv s'. subst rg srv s'.
  unfold resourceArmPostgreSQLAdministratorDelete, client_Delete. run_monad.
  rewrite Hparse. simpl.
  destruct (Delete_reply _ _ _ _) as [e|]; simpl.
  - split; [right; by eexists|]. by split.
  - split; [by left|]. by split.
Qed.

(** X23. When the parsed identifier has no ["servers"] segment, Read and
    Delete of a binding do not fail on the missing key: they call the API
    with the empty server name.  Delete never panics and its only call is
    that delete.  Read's only call is that fetch whenever it returns, and it
    panics only after that fetch has succeeded, on a response without
    properties, principal or tenant; on such a response it does panic. *)
Theorem Administrator_missing_servers_segment (s : St) id :
  ParseAzureResourceID meta (Id (d s)) = (Some id, None) ->
  azure.Path id !! "servers" = None ->
  let fetched_without_fields :=
    exists resp,
      Get_reply meta (log s) (azure.ResourceGroup id) "" = (resp, None)
      /\ (postgresql.Properties resp = None
          \/ exists props,
               postgresql.Properties resp = Some props
               /\ (postgresql.Sid props = None \/ postgresql.TenantID props = None)) in
  match resourceArmPostgreSQLAdministratorRead meta s with
  | Panic => fetched_without_fields
  | Fail _ s' | Ok _ s' => log s' = log s ++ [Get (azure.ResourceGroup id) ""]
  end
  /\ (fetched_without_fields -> resourceArmPostgreSQLAdministratorRead meta s = Panic)
  /\ match resourceArmPostgreSQLAdministratorDelete meta s with
     | Panic => False
     | Fail _ s' | Ok _ s' => log s' = log s ++ [Delete (azure.ResourceGroup id) ""]
     end.
Proof.
  intros Hparse Hmissing fetched. subst fetched.
  unfold resourceArmPostgreSQLAdministratorRead,
    resourceArmPostgreSQLAdministratorDelete, client_Get, client_Delete. run_monad.
  rewrite Hparse. simpl. rewrite Hmissing. simpl.
  split; [|split]; [| |by destruct (Delete_reply _ _ _ _)].
  - destruct (Get_reply _ _ _ _) as [resp [e|]]; simpl.
    + by destruct (ResponseWasNotFound _).
    + destruct (postgresql.Properties resp) as [props|] eqn:Hprops; simpl.
      2:{ exists resp. split; [done|]. by left. }
      destruct (postgresql.Sid props) eqn:Hsid; simpl.
      2:{ exists resp. split; [done|]. right. exists props. split; [done|]. by left. }
      destruct (postgresql.TenantID props) eqn:Htenant; simpl; [done|].
      exists resp. split; [done|]. right. exists props. split; [done|]. by right.
  - intros (resp & -> & Hlacks). simpl.
    destruct Hlacks as [->|(props & -> & [Hsid|Htenant])]; simpl; [done| |].
    + by rewrite Hsid.
    + rewrite Htenant. by destruct (postgresql.Sid props).
Qed.

End AdministratorMore.

(** ** The further properties at concrete instances *)

Lemma expandRoleDefinitionAssignableScopes_stable_under_refresh_witness :
  role_definition.expandRoleDefinitionAssignableScopes
    (role_definition.Set_assignable_scopes
       (flattenRoleDefinitionAssignableScopes (Some ["/subscriptions/X"; "/subscriptions/Y"]))
       (d demo.role_state))
  = Some ["/subscriptions/X"; "/subscriptions/Y"].
Proof.
  apply (expandRoleDefinitionAssignableScopes_stable_under_refresh (d demo.role_state)).
  reflexivity.
Defined.

Lemma flatten_expand_flatten_stable_witness :
  flattenRoleDefinitionPermissions demo.HashString
    (Some (expandRoleDefinitionPermissions demo.stored_blocks))
  = Some demo.stored_blocks.
Proof.
  apply (flatten_expand_flatten_stable demo.HashString (Some [demo.remote_permission])).
  reflexivity.
Defined.

Lemma Read_success_witness :
  exists s',
    role_definition.resourceArmRoleDefinitionRead demo.meta_present demo.role_state = Ok tt s'
    /\ role_definition.Id (d s') = role_definition.Id (d demo.role_state)
    /\ role_definition.name (d s') = "reader"
    /\ role_definition.description (d s') = ""
    /\ role_definition.assignable_scopes (d s')
       = [istr "/subscriptions/X"; istr "/subscriptions/Y"].
Proof.
  destruct (Read_success demo.meta_present demo.role_state demo.role_id demo.role_stored
              eq_refl eq_refl)
    as (s' & Hread & _ & _ & HId & _ & _ & _ & _ & Hname & Hdescription & Hscopes & _).
  exists s'. by repeat split.
Defined.

Lemma Read_fetch_error_witness :
  exists s',
    role_definition.resourceArmRoleDefinitionRead demo.meta_failing demo.role_state
    = Fail (ErrorfV "Error loading Role Definition %q: %+v"
                    [role_definition.Id (d demo.role_state)] demo.internal_error) s'
    /\ log s' = log demo.role_state ++ [role_definition.Get "/subscriptions/X" "abc"]
    /\ d s' = role_definition.Set_role_definition_resource_id demo.role_resource_id
                (role_definition.Set_role_definition_id "abc"
                   (role_definition.Set_scope "/subscriptions/X" (d demo.role_state))).
Proof.
  apply (Read_fetch_error demo.meta_failing demo.role_state demo.role_id demo.role_failed
           demo.internal_error); reflexivity.
Defined.

Lemma Delete_outcome_witness :
  exists e s',
    role_definition.resourceArmRoleDefinitionDelete demo.meta_failing demo.role_state
    = Fail (ErrorfV "deleting Role Definition %q at Scope %q: %+v"
                    ["abc"; "/subscriptions/X"] e) s'
    /\ d s' = d demo.role_state.
Proof.
  destruct (Delete_outcome demo.meta_failing demo.role_state demo.role_id None eq_refl)
    as [[Hok|(e & _ & _ & Hfail)] _].
  - discriminate Hok.
  - eexists e, _. split; [exact Hfail|reflexivity].
Defined.

Lemma Create_check_error_witness :
  role_definition.resourceArmRoleDefinitionCreate demo.meta_failing demo.role_state
  = Fail (Errorf "Error checking for presence of existing Role Definition ID for %q (Scope %q)"
                 ["reader"; "/subscriptions/X"])
         {| d := d demo.role_state;
            log := [role_definition.Get "/subscriptions/X" "abc"];
            now := 0 |}.
Proof.
  apply (Create_check_error demo.meta_failing demo.role_state "abc"
           ["/subscriptions/X"; "/subscriptions/Y"; "/subscriptions/X"]
           demo.role_failed demo.internal_error).
  - reflexivity.
  - left. split; [reflexivity|discriminate].
  - reflexivity.
  - reflexivity.
  - reflexivity.
Defined.

Lemma Create_success_continues_with_Read_witness :
  exists upsert,
    role_definition.resourceArmRoleDefinitionCreate demo.meta_creating demo.role_state
    = role_definition.resourceArmRoleDefinitionRead demo.meta_creating
        {| d := role_definition.SetId (demo.role_resource_id +:+ "|" +:+ "/subscriptions/X")
                  (d demo.role_state);
           log := [role_definition.Get "/subscriptions/X" "abc"; upsert;
                   role_definition.Get "/subscriptions/X" "abc"];
           now := 0 |}.
Proof.
  eexists.
  apply (Create_success_continues_with_Read demo.meta_creating demo.role_state "abc"
           ["/subscriptions/X"; "/subscriptions/Y"; "/subscriptions/X"]
           demo.role_stored demo.role_stored demo.role_resource_id).
  - left. split; [reflexivity|discriminate].
  - reflexivity.
  - right. split; [reflexivity|].
    exists demo.role_gone, (Some demo.not_found).
    split; [reflexivity|]. split; [by right|by left].
  - reflexivity.
  - reflexivity.
  - reflexivity.
  - discriminate.
Defined.

Lemma Create_upsert_error_witness :
  exists upsert,
    role_definition.resourceArmRoleDefinitionCreate demo.meta_upsert_failing demo.role_state
    = Fail demo.internal_error
           {| d := d demo.role_state;
              log := [role_definition.Get "/subscriptions/X" "abc"; upsert];
              now := 0 |}.
Proof.
  eexists.
  apply (Create_upsert_error demo.meta_upsert_failing demo.role_state "abc"
           ["/subscriptions/X"; "/subscriptions/Y"; "/subscriptions/X"] demo.role_failed).
  - left. split; [reflexivity|discriminate].
  - reflexivity.
  - right. split; [reflexivity|].
    exists demo.role_gone, (Some demo.not_found).
    split; [reflexivity|]. split; [by right|by left].
  - reflexivity.
Defined.

Lemma Update_fails_before_polling_witness :
  exists upsert,
    role_definition.resourceArmRoleDefinitionUpdate demo.meta_failing demo.role_state
    = Fail (ErrorfV "updating Role Definition %q (Scope %q): %+v"
                    ["abc"; "/subscriptions/X"] demo.internal_error)
           {| d := d demo.role_state; log := [upsert]; now := 0 |}.
Proof.
  eexists.
  apply (Update_fails_before_polling demo.meta_failing demo.role_state demo.role_id
           ["/subscriptions/X"; "/subscriptions/Y"; "/subscriptions/X"]
           (demo.role_read None None) (Some demo.internal_error)).
  - reflexivity.
  - reflexivity.
  - reflexivity.
  - left. by eexists.
Defined.

Lemma AdministratorCreateUpdate_existing_witness :
  postgres.resourceArmPostgreSQLAdministratorCreateUpdate demo.admin_present demo.admin_state
  = Fail (ImportAsExistsError "azurerm_postgresql_active_directory_administrator"
            demo.admin_resource_id)
         {| d := d demo.admin_state; log := [postgres.Get "rg" "srv"]; now := 0 |}.
Proof.
  apply (AdministratorCreateUpdate_existing demo.admin_present demo.admin_state
           demo.admin_stored None demo.admin_resource_id).
  - reflexivity.
  - reflexivity.
  - reflexivity.
  - by left.
  - reflexivity.
  - discriminate.
Defined.

Lemma AdministratorCreateUpdate_unchecked_upsert_first_witness :
  let s := demo.admin_state in
  let first :=
    postgres.CreateOrUpdate "rg" "srv" (postgres.payload demo.admin_unchecked (d s)) in
  let nil_ID_after_upsert :=
    postgres.CreateOrUpdate_reply demo.admin_unchecked (log s) "rg" "srv"
      (postgres.payload demo.admin_unchecked (d s)) = None
    /\ postgres.WaitForCompletionRef_reply demo.admin_unchecked (log s ++ [first]) = None
    /\ exists resp,
         postgres.Get_reply demo.admin_unchecked
           (log s ++ [first; postgres.WaitForCompletionRef]) "rg" "srv" = (resp, None)
         /\ postgresql.ID resp = None in
  match postgres.resourceArmPostgreSQLAdministratorCreateUpdate demo.admin_unchecked s with
  | Panic => nil_ID_after_upsert
  | Fail _ s' | Ok _ s' => exists rest, log s' = log s ++ first :: rest
  end
  /\ (nil_ID_after_upsert
      -> postgres.resourceArmPostgreSQLAdministratorCreateUpdate demo.admin_unchecked s
         = Panic).
Proof.
  apply (AdministratorCreateUpdate_unchecked_upsert_first demo.admin_unchecked demo.admin_state).
  reflexivity.
Defined.

Lemma AdministratorCreateUpdate_success_witness :
  exists upsert,
    postgres.resourceArmPostgreSQLAdministratorCreateUpdate demo.admin_creating demo.admin_state
    = Ok tt {| d := postgres.SetId demo.admin_resource_id (d demo.admin_state);
               log := [postgres.Get "rg" "srv"; upsert; postgres.WaitForCompletionRef;
                       postgres.Get "rg" "srv"];
               now := 0 |}.
Proof.
  eexists.
  apply (AdministratorCreateUpdate_success demo.admin_creating demo.admin_state
           demo.admin_stored demo.admin_resource_id).
  - right. split; [reflexivity|].
    exists (demo.admin_response 404), (Some demo.not_found).
    split; [reflexivity|]. split; [by right|by left].
  - reflexivity.
  - reflexivity.
  - reflexivity.
  - reflexivity.
Defined.

Lemma AdministratorCreateUpdate_errors_witness :
  exists upsert,
    postgres.resourceArmPostgreSQLAdministratorCreateUpdate
      demo.admin_upsert_failing demo.admin_state
    = Fail (ErrorfV "Error issuing create/update request for PostgreSQL AD Administrator (Resource Group %q, Server %q): %+v"
                    ["rg"; "srv"] demo.internal_error)
           {| d := d demo.admin_state;
              log := [postgres.Get "rg" "srv"; upsert];
              now := 0 |}.
Proof.
  eexists.
  apply (AdministratorCreateUpdate_errors demo.admin_upsert_failing demo.admin_state
           demo.internal_error).
  - right. split; [reflexivity|].
    exists (demo.admin_response 404), (Some demo.not_found).
    split; [reflexivity|]. split; [by right|by left].
  - reflexivity.
Defined.

Lemma AdministratorRead_success_witness :
  postgres.resourceArmPostgreSQLAdministratorRead demo.admin_present demo.admin_state
  = Ok tt {| d := {| postgres.Id := demo.admin_resource_id;
                     postgres.IsNewResource := true;
                     postgres.server_name := "srv";
                     postgres.resource_group_name := "rg";
                     postgres.login := "dba";
                     postgres.object_id := "2f8c9b1e-5d3a-4c47-8a61-9b0f6f2d7e10";
                     postgres.tenant_id := "7b1d3c55-0e6f-4f0b-b1a9-3c8e5d2a4f90" |};
             log := [postgres.Get "rg" "srv"];
             now := 0 |}.
Proof.
  etrans.
  - apply (AdministratorRead_success demo.admin_present demo.admin_state
             {| azure.ResourceGroup := "rg"; azure.Path := {[ "servers" := "srv" ]} |}
             demo.admin_stored demo.admin_stored_properties
             "2f8c9b1e-5d3a-4c47-8a61-9b0f6f2d7e10" "7b1d3c55-0e6f-4f0b-b1a9-3c8e5d2a4f90");
      reflexivity.
  - by vm_compute.
Defined.

Lemma AdministratorRead_nil_field_panics_witness :
  postgres.resourceArmPostgreSQLAdministratorRead demo.admin_no_ID demo.admin_state = Panic.
Proof.
  apply (AdministratorRead_nil_field_panics demo.admin_no_ID demo.admin_state
           {| azure.ResourceGroup := "rg"; azure.Path := {[ "servers" := "srv" ]} |}
           (demo.admin_response 200)).
  - reflexivity.
  - reflexivity.
  - by left.
Defined.

Lemma Administrator_parse_error_witness :
  let e := ErrExternal "cannot parse Azure ID" in
  postgres.resourceArmPostgreSQLAdministratorRead demo.admin_gone demo.admin_state_malformed
  = Fail e demo.admin_state_malformed
  /\ postgres.resourceArmPostgreSQLAdministratorDelete demo.admin_gone
       demo.admin_state_malformed
     = Fail e demo.admin_state_malformed.
Proof.
  apply (Administrator_parse_error demo.admin_gone demo.admin_state_malformed None).
  reflexivity.
Defined.

Lemma AdministratorDelete_outcome_witness :
  postgres.resourceArmPostgreSQLAdministratorDelete demo.admin_present demo.admin_state
  = Ok tt {| d := d demo.admin_state; log := [postgres.Delete "rg" "srv"]; now := 0 |}.
Proof.
  apply (AdministratorDelete_outcome demo.admin_present demo.admin_state
           {| azure.ResourceGroup := "rg"; azure.Path := {[ "servers" := "srv" ]} |} eq_refl).
  reflexivity.
Defined.

Lemma Administrator_missing_servers_segment_witness :
  let s := demo.admin_state in
  let fetched_without_fields :=
    exists resp,
      postgres.Get_reply demo.admin_no_servers (log s) "rg" "" = (resp, None)
      /\ (postgresql.Properties resp = None
          \/ exists props,
               postgresql.Properties resp = Some props
               /\ (postgresql.Sid props = None \/ postgresql.TenantID props = None)) in
  match postgres.resourceArmPostgreSQLAdministratorRead demo.admin_no_servers s with
  | Panic => fetched_without_fields
  | Fail _ s' | Ok _ s' => log s' = log s ++ [postgres.Get "rg" ""]
  end
  /\ (fetched_without_fields
      -> postgres.resourceArmPostgreSQLAdministratorRead demo.admin_no_servers s = Panic)
  /\ match postgres.resourceArmPostgreSQLAdministratorDelete demo.admin_no_servers s with
     | Panic => False
     | Fail _ s' | Ok _ s' => log s' = log s ++ [postgres.Delete "rg" ""]
     end.
Proof.
  apply (Administrator_missing_servers_segment demo.admin_no_servers demo.admin_state
           {| azure.ResourceGroup := "rg"; azure.Path := ∅ |}); reflexivity.
Defined.

(** * The update as a whole *)

Section PollEnds.
Context {D C R : Type}.
Import resource.
Variable conf : StateChangeConf D C R.

(** A round at or past the deadline, or without fuel, gives up. *)
Lemma WaitForState_loop_deadline deadline fuel occ last (s : State D C) :
  deadline <= now s ->
  WaitForState_loop conf deadline fuel occ last s
  = Ok (None, Some (TimeoutError last (Target conf))) s.
Proof.
  intros Hlate. destruct fuel as [|fuel]; simpl; run_monad; [done|].
  by rewrite (proj2 (Z.leb_le _ _) Hlate).
Qed.

Lemma WaitForState_loop_no_fuel deadline occ last (s : State D C) :
  WaitForState_loop conf deadline 0 occ last s
  = Ok (None, Some (TimeoutError last (Target conf))) s.
Proof. done. Qed.

(** A round whose observation panics, fails or carries an error. *)
Lemma WaitForState_loop_round_Panic deadline fuel occ last (s : State D C) :
  now s < deadline ->
  Refresh conf s = Panic ->
  WaitForState_loop conf deadline (S fuel) occ last s = Panic.
Proof.
  intros Hnow Href. simpl. run_monad.
  by rewrite (proj2 (Z.leb_gt _ _) Hnow), Href.
Qed.

Lemma WaitForState_loop_round_error deadline fuel occ last (s s1 : State D C) res st e :
  now s < deadline ->
  Refresh conf s = Ok (res, st, Some e) s1 ->
  WaitForState_loop conf deadline (S fuel) occ last s = Ok (None, Some e) s1.
Proof.
  intros Hnow Href. simpl. run_monad.
  by rewrite (proj2 (Z.leb_gt _ _) Hnow), Href.
Qed.

End PollEnds.

Section UpdatePoll.
Import role_definition.
Variable meta : Meta.
Variable id : parse.RoleDefinitionID.
Variable marker : string.
Variable timeout : Z.

Local Abbreviation refresh := (roleDefinitionEventualConsistencyUpdate meta id marker).
Local Abbreviation conf := (stateConf meta id marker timeout).
Local Abbreviation reply s := (WorkaroundGet_reply meta (log s) (parse.Scope id) (parse.RoleID id)).

(** The outcomes of one observation. *)
Lemma refresh_cases (s : St) :
  (refresh s = Panic /\ lacks_UpdatedOn (reply s))
  \/ (exists resp e, refresh s = Ok (resp, "Failed", Some e) (observed id s))
  \/ (exists resp, refresh s = Ok (resp, "Pending", None) (observed id s)
                   /\ ~ reconciled marker (reply s))
  \/ (exists resp, refresh s = Ok (resp, "Updated", None) (observed id s)
                   /\ reconciled marker (reply s)).
Proof.
  unfold roleDefinitionEventualConsistencyUpdate, workaround_Get. run_monad.
  destruct (reply s) as [resp [e|]] eqn:Hget; simpl.
  { right; left. by eauto. }
  destruct (azuresdkhacks.Properties resp) as [props|] eqn:Hprops; simpl;
    [|right; left; by eauto].
  destruct (azuresdkhacks.CreatedOn props) as [c|] eqn:Hc; simpl;
    [|right; left; by eauto].
  destruct (azuresdkhacks.UpdatedOn props) as [u|] eqn:Hu; simpl.
  2:{ left. split; [done|]. by exists resp, props, c. }
  rewrite !String_eqb_decide.
  repeat case_bool_decide; simpl.
  - right; right; left. exists resp. split; [done|].
    intros (r & p & c' & [= <-] & Hp & Hc' & Hne & _). congruence.
  - right; right; right. exists resp. split; [done|]. exists resp, props, c. by subst u.
  - right; right; left. exists resp. split; [done|].
    intros (r & p & c' & [= <-] & Hp & Hc' & Hne & Hu'). congruence.
Qed.

(** How the loop can end: with a panic on a read that lacks updatedOn, with
    an error, or with success on observation number [j], taken before the
    deadline, the last five observations (those there are) being reconciled
    reads.  It never ends through the handler's error path. *)
Lemma WaitForState_loop_ends deadline fuel :
  forall occ last (s : St),
    0 <= occ < 5 ->
    match resource.WaitForState_loop conf deadline fuel occ last s with
    | Panic => exists j : nat, lacks_UpdatedOn (reply_at meta id s j)
    | Fail _ _ => False
    | Ok (_, Some _) _ => True
    | Ok (_, None) s' =>
        exists j : nat,
          s' = observed id (polled id s j)
          /\ 5 - occ <= Z.of_nat j + 1
          /\ now (polled id s j) < deadline
          /\ forall i : nat, (i <= j < i + 5)%nat -> reconciled marker (reply_at meta id s i)
    end.
Proof.
  induction fuel as [|fuel IH]; intros occ last s Hocc.
  { by rewrite WaitForState_loop_no_fuel. }
  destruct (Z.le_gt_cases deadline (now s)) as [Hlate|Hnow].
  { by rewrite WaitForState_loop_deadline. }
  destruct (refresh_cases s)
    as [[Href Hnil]|[(resp & e & Href)|[(resp & Href & Hnot)|(resp & Href & Hrec)]]].
  - rewrite (WaitForState_loop_round_Panic conf) by done. by exists 0%nat.
  - by rewrite (WaitForState_loop_round_error conf _ _ _ _ _ _ _ _ _ Hnow Href).
  - rewrite (WaitForState_loop_round conf _ _ _ _ _ _ _ _ Hnow Href). conf_fields.
    rewrite bool_decide_eq_false_2 by (by intros ?%list_elem_of_singleton).
    rewrite bool_decide_eq_true_2 by (by apply list_elem_of_singleton).
    specialize (IH 0 "Pending" (next_round id s) ltac:(lia)).
    change {| d := d s; log := log s ++ [WorkaroundGet (parse.Scope id) (parse.RoleID id)];
              now := now s + 10 |} with (next_round id s).
    destruct (resource.WaitForState_loop _ _ _ _ _ _) as [| |[r [e|]] s']; try done.
    + destruct IH as [j Hj]. by exists (S j).
    + destruct IH as (j & -> & Hj & Hin & Hlast).
      exists (S j). split; [done|]. split; [lia|]. split; [done|].
      intros [|i] Hi; [lia|]. apply (Hlast i). lia.
  - rewrite (WaitForState_loop_round conf _ _ _ _ _ _ _ _ Hnow Href). conf_fields.
    rewrite bool_decide_eq_true_2 by (by apply list_elem_of_singleton).
    destruct (Z.eqb_spec 5 (occ + 1)) as [Hfive|Hmore].
    + exists 0%nat. split; [done|]. split; [lia|]. split; [done|].
      intros i Hi. by replace i with 0%nat by lia.
    + specialize (IH (occ + 1) "Updated" (next_round id s) ltac:(lia)).
      change {| d := d s; log := log s ++ [WorkaroundGet (parse.Scope id) (parse.RoleID id)];
                now := now s + 10 |} with (next_round id s).
      destruct (resource.WaitForState_loop _ _ _ _ _ _) as [| |[r [e|]] s']; try done.
      * destruct IH as [j Hj]. by exists (S j).
      * destruct IH as (j & -> & Hj & Hin & Hlast).
        exists (S j). split; [done|]. split; [lia|]. split; [done|].
        intros [|i] Hi; [done|]. apply (Hlast i). lia.
Qed.

(** Reconciled reads that run into the deadline before the fifth of them:
    the loop gives up with a timeout error. *)
Lemma WaitForState_loop_reconciled_timeout deadline (need : nat) :
  forall fuel occ last (s : St),
    occ = 4 - Z.of_nat need ->
    deadline <= now s + 10 * Z.of_nat need ->
    (forall i : nat, (i < need)%nat -> reconciled marker (reply_at meta id s i)) ->
    exists last' s',
      resource.WaitForState_loop conf deadline fuel occ last s
      = Ok (None, Some (TimeoutError last' ["Updated"])) s'.
Proof.
  induction need as [|need IH]; intros fuel occ last s Hocc Hlate Hrec.
  { rewrite WaitForState_loop_deadline by lia. by eauto. }
  destruct fuel as [|fuel]; [rewrite WaitForState_loop_no_fuel; by eauto|].
  destruct (Z.le_gt_cases deadline (now s)) as [Hnow|Hnow].
  { rewrite WaitForState_loop_deadline by done. by eauto. }
  destruct (refresh_reconciled meta id marker s (Hrec 0%nat ltac:(lia))) as [resp Href].
  rewrite (WaitForState_loop_round conf _ _ _ _ _ (observed id s) resp "Updated");
    [|done|done].
  conf_fields. rewrite bool_decide_eq_true_2 by (by apply list_elem_of_singleton).
  rewrite (proj2 (Z.eqb_neq 5 (occ + 1))) by lia.
  apply (IH fuel (occ + 1) "Updated" (next_round id s)); [lia|simpl; lia|].
  intros i Hi. apply (Hrec (S i)). lia.
Qed.

(** [n] reads of the shadow copy and then reconciled reads, when the
    deadline falls before observation number [n + 4] can be taken. *)
Lemma WaitForState_loop_shadow_timeout deadline (n : nat) :
  forall fuel last (s : St),
    deadline <= now s + 10 * Z.of_nat (n + 4) ->
    (forall i : nat, (i < n)%nat -> shadow_copy marker (reply_at meta id s i)) ->
    (forall i : nat, (n <= i < n + 5)%nat -> reconciled marker (reply_at meta id s i)) ->
    exists last' s',
      resource.WaitForState_loop conf deadline fuel 0 last s
      = Ok (None, Some (TimeoutError last' ["Updated"])) s'.
Proof.
  induction n as [|n IH]; intros fuel last s Hlate Hshadow Hrec.
  { apply (WaitForState_loop_reconciled_timeout deadline 4); [done|done|].
    intros i Hi. apply Hrec. lia. }
  destruct fuel as [|fuel]; [rewrite WaitForState_loop_no_fuel; by eauto|].
  destruct (Z.le_gt_cases deadline (now s)) as [Hnow|Hnow].
  { rewrite WaitForState_loop_deadline by done. by eauto. }
  destruct (refresh_shadow_copy meta id marker s (Hshadow 0%nat ltac:(lia))) as [resp Href].
  rewrite (WaitForState_loop_round conf _ _ _ _ _ (observed id s) resp "Pending");
    [|done|done].
  conf_fields. rewrite bool_decide_eq_false_2 by (by intros ?%list_elem_of_singleton).
  rewrite bool_decide_eq_true_2 by (by apply list_elem_of_singleton).
  apply (IH fuel "Pending" (next_round id s)); [simpl; lia| |].
  - intros i Hi. apply (Hshadow (S i)). lia.
  - intros i Hi. apply (Hrec (S i)). lia.
Qed.

End UpdatePoll.

Section UpdateWhole.
Import role_definition.
Variable meta : Meta.

(** The state after [k] observations of the poll that follows the upsert
    [upsert]: one [Get] of the workaround client each, ten seconds apart. *)
Lemma polled_state (id : parse.RoleDefinitionID) (s : St) (j : nat) :
  observed id (polled id (delayed s) j)
  = {| d := d s;
       log := log s ++ replicate (S j) (WorkaroundGet (parse.Scope id) (parse.RoleID id));
       now := now s + 10 * Z.of_nat (S j) |}.
Proof.
  assert (forall (t : St) i,
            polled id t i
            = {| d := d t;
                 log := log t ++ replicate i (WorkaroundGet (parse.Scope id) (parse.RoleID id));
                 now := now t + 10 * Z.of_nat i |}) as Hpolled.
  { intros t i. revert t. induction i as [|i IH]; intros [dt lt nt].
    - simpl. f_equal; [by rewrite app_nil_r|lia].
    - change (polled id ?t (S i)) with (polled id (next_round id t) i).
      rewrite IH. simpl. f_equal; [by rewrite <- app_assoc|lia]. }
  rewrite Hpolled. unfold observed, delayed. simpl. f_equal.
  - rewrite <- app_assoc. f_equal.
    change [?c] with (replicate 1 c). rewrite <- replicate_add.
    by rewrite Nat.add_comm.
  - lia.
Qed.

(** Update, once its upsert has returned properties with the marker
    [marker], ends as the poll does: a poll error is wrapped, and success
    continues with Read. *)
Lemma Update_after_upsert (s : St) id supplied resp props marker :
  RoleDefinitionId meta (Id (d s)) = (Some id, None) ->
  assignable_scopes (d s) = istr <$> supplied ->
  let properties :=
    payload (d s) (scope (d s) :: filter (fun x => x ≠ scope (d s)) supplied) in
  let upsert := WorkaroundCreateOrUpdate (parse.Scope id) (parse.RoleID id) properties in
  WorkaroundCreateOrUpdate_reply meta (log s) (parse.Scope id) (parse.RoleID id) properties
  = (resp, None) ->
  azuresdkhacks.Properties resp = Some props ->
  azuresdkhacks.UpdatedOn props = Some marker ->
  resourceArmRoleDefinitionUpdate meta s
  = match resource.WaitForState_loop (stateConf meta id marker (TimeoutUpdate (d s)))
            (now s + TimeoutUpdate (d s)) (Z.to_nat (TimeoutUpdate (d s))) 0 ""
            (delayed {| d := d s; log := log s ++ [upsert]; now := now s |}) with
    | Panic => Panic
    | Fail e s' => Fail e s'
    | Ok (_, Some e) s' =>
        Fail (ErrorfV "waiting for Role Definition %q (Scope %q) to settle down: %+v"
                      [parse.RoleID id; parse.Scope id] e) s'
    | Ok (_, None) s' => resourceArmRoleDefinitionRead meta s'
    end.
Proof.
  intros Hparse Hscopes properties upsert Hupsert Hprops Hmarker.
  pose proof (expandRoleDefinitionAssignableScopes_boxed _ _ Hscopes) as Hexp.
  unfold resourceArmRoleDefinitionUpdate, workaround_CreateOrUpdate, resource.WaitForState.
  subst properties upsert. unfold payload, delayed in *. run_monad.
  rewrite Hparse. simpl. rewrite Hexp. simpl. rewrite Hupsert, Hprops, Hmarker. simpl.
  destruct (resource.WaitForState_loop _ _ _ _ _ _) as [| |[r [e|]] s']; reflexivity.
Qed.

End UpdateWhole.

Section UpdateConvergence.
Import role_definition.
Variable meta : Meta.

(** C3. Let Update run on a stored role definition whose identifier parses
    to [id], whose assignable scopes are the strings [supplied] (on a nil
    entry Update panics before the upsert) and whose upsert returns
    properties with the updatedOn marker [marker] (otherwise Update fails
    before it polls); the poll then reads through the workaround client, read
    number [i] (from 0) being the reply to the [Get] issued after the upsert
    and [i] earlier reads; the timeout is the resource's update timeout.
    Let the first [N] reads be reads of the shadow copy (createdOn equal to
    the marker).  Then
    (a) Update ends in one of three ways: it panics, on a read that lacks
        updatedOn; or it returns the poll's error wrapped as "waiting for
        Role Definition ... to settle down"; or it goes on to Read after
        [k >= N + 5] observations, ten seconds apart and all within the
        update timeout, the last five of which were reconciled reads, that
        is, observed as Updated;
    (b) when reads number [N] to [N + 4] are reconciled reads and the update
        timeout exceeds [10 * (N + 5)] seconds, Update goes on to Read after
        exactly [N + 5] observations, four observations after the first
        Updated one;
    (c) when these reads are reconciled reads but the update timeout is at
        most [10 * (N + 5)] seconds, Update fails with the wrapped timeout
        error. *)
Theorem Update_succeeds_only_after_five_consecutive_Updated
  (s : St) id (supplied : list string) resp props marker (N : nat) :
  RoleDefinitionId meta (Id (d s)) = (Some id, None) ->
  assignable_scopes (d s) = istr <$> supplied ->
  let properties :=
    payload (d s) (scope (d s) :: filter (fun x => x ≠ scope (d s)) supplied) in
  let upsert := WorkaroundCreateOrUpdate (parse.Scope id) (parse.RoleID id) properties in
  let poll := WorkaroundGet (parse.Scope id) (parse.RoleID id) in
  let read (i : nat) :=
    WorkaroundGet_reply meta (log s ++ upsert :: replicate i poll)
                        (parse.Scope id) (parse.RoleID id) in
  let after (k : nat) : St :=
    {| d := d s;
       log := log s ++ upsert :: replicate k poll;
       now := now s + 10 * Z.of_nat k |} in
  let waiting (e : error) :=
    ErrorfV "waiting for Role Definition %q (Scope %q) to settle down: %+v"
            [parse.RoleID id; parse.Scope id] e in
  WorkaroundCreateOrUpdate_reply meta (log s) (parse.Scope id) (parse.RoleID id) properties
  = (resp, None) ->
  azuresdkhacks.Properties resp = Some props ->
  azuresdkhacks.UpdatedOn props = Some marker ->
  (forall i : nat, (i < N)%nat -> shadow_copy marker (read i)) ->
  ((resourceArmRoleDefinitionUpdate meta s = Panic
    /\ exists j : nat, lacks_UpdatedOn (read j))
   \/ (exists e s', resourceArmRoleDefinitionUpdate meta s = Fail (waiting e) s')
   \/ (exists k : nat,
         (N + 5 <= k)%nat
         /\ 10 * Z.of_nat k < TimeoutUpdate (d s)
         /\ (forall i : nat, (k - 5 <= i < k)%nat -> reconciled marker (read i))
         /\ resourceArmRoleDefinitionUpdate meta s
            = resourceArmRoleDefinitionRead meta (after k)))
  /\ ((forall i : nat, (N <= i < N + 5)%nat -> reconciled marker (read i)) ->
      (10 * Z.of_nat (N + 5) < TimeoutUpdate (d s) ->
       resourceArmRoleDefinitionUpdate meta s
       = resourceArmRoleDefinitionRead meta (after (N + 5)%nat))
      /\ (TimeoutUpdate (d s) <= 10 * Z.of_nat (N + 5) ->
          exists last s',
            resourceArmRoleDefinitionUpdate meta s
            = Fail (waiting (TimeoutError last ["Updated"])) s')).
Proof.
  intros Hparse Hscopes properties upsert poll read after waiting
    Hupsert Hprops Hmarker Hshadow.
  set (s0 := {| d := d s; log := log s ++ [upsert]; now := now s |} : St).
  assert (forall i, reply_at meta id (delayed s0) i = read i) as Hreply.
  { intros i. unfold reply_at, read. rewrite log_polled. simpl.
    by rewrite <- app_assoc. }
  assert (forall j, observed id (polled id (delayed s0) j) = after (S j)) as Hafter.
  { intros j. rewrite polled_state. unfold after. simpl. by rewrite <- app_assoc. }
  rewrite (Update_after_upsert meta s id supplied resp props marker
             Hparse Hscopes Hupsert Hprops Hmarker).
  fold properties. fold upsert. fold s0.
  split.
  - pose proof (WaitForState_loop_ends meta id marker (TimeoutUpdate (d s))
                  (now s + TimeoutUpdate (d s)) (Z.to_nat (TimeoutUpdate (d s)))
                  0 "" (delayed s0) ltac:(lia)) as Hends.
    destruct (resource.WaitForState_loop _ _ _ _ _ _) as [| |[r [e|]] s']; [| done | |].
    + left. split; [done|]. destruct Hends as [j Hj]. exists j. by rewrite <- Hreply.
    + right; left. by exists e, s'.
    + right; right. destruct Hends as (j & -> & Hj & Hin & Hlast).
      rewrite now_polled in Hin. simpl in Hin.
      exists (S j). split; [|split; [lia|split]].
      * destruct (decide (N + 4 <= j)%nat) as [|Hearly]; [lia|].
        destruct (shadow_copy_not_reconciled marker (read (j - 4)%nat));
          [apply Hshadow|rewrite <- Hreply; apply Hlast]; lia.
      * intros i Hi. rewrite <- Hreply. apply Hlast. lia.
      * by rewrite Hafter.
  - intros Hrec. split.
    + intros Htime.
      destruct (WaitForState_loop_shadow_run meta id marker (TimeoutUpdate (d s))
                  (now s + TimeoutUpdate (d s)) N (Z.to_nat (TimeoutUpdate (d s))) ""
                  (delayed s0)) as [res ->].
      * lia.
      * simpl. lia.
      * intros i Hi. rewrite Hreply. by apply Hshadow.
      * intros i Hi. rewrite Hreply. by apply Hrec.
      * rewrite Hafter. by replace (S (N + 4)) with (N + 5)%nat by lia.
    + intros Htime.
      destruct (WaitForState_loop_shadow_timeout meta id marker (TimeoutUpdate (d s))
                  (now s + TimeoutUpdate (d s)) N (Z.to_nat (TimeoutUpdate (d s))) ""
                  (delayed s0)) as (last & s' & ->).
      * simpl. lia.
      * intros i Hi. rewrite Hreply. by apply Hshadow.
      * intros i Hi. rewrite Hreply. by apply Hrec.
      * by exists last, s'.
Qed.

End UpdateConvergence.

(** Two lists sent to the remote API and a poll that settles: the stored
    role definition is read again sixty seconds after the upsert, after one
    observation of the shadow copy and five of the reconciled object. *)
Lemma Update_succeeds_only_after_five_consecutive_Updated_witness :
  exists upsert,
    role_definition.resourceArmRoleDefinitionUpdate demo.meta_settling demo.role_state
    = role_definition.resourceArmRoleDefinitionRead demo.meta_settling
        {| d := d demo.role_state;
           log := upsert :: replicate 6 (role_definition.WorkaroundGet "/subscriptions/X" "abc");
           now := 60 |}.
Proof.
  eexists.
  destruct (Update_succeeds_only_after_five_consecutive_Updated
              demo.meta_settling demo.role_state demo.role_id
              ["/subscriptions/X"; "/subscriptions/Y"; "/subscriptions/X"]
              (demo.role_read (Some "t2") (Some "t2"))
              (demo.role_read_properties (Some "t2") (Some "t2")) "t2" 1
              eq_refl eq_refl eq_refl eq_refl eq_refl) as [_ Hlive].
  - intros i Hi. destruct i as [|i]; [|lia].
    eexists _, _, "t2". repeat split; reflexivity.
  - destruct Hlive as [Hlive _].
    + intros i Hi.
      assert (demo.settling
                (role_definition.WorkaroundCreateOrUpdate "/subscriptions/X" "abc"
                   (role_definition.payload (d demo.role_state)
                      ["/subscriptions/X"; "/subscriptions/Y"])
                 :: replicate i (role_definition.WorkaroundGet "/subscriptions/X" "abc"))
              = (demo.role_read (Some "t1") (Some "t2"), None)) as Hread.
      { unfold demo.settling. simpl. rewrite length_replicate.
        destruct i as [|i]; [lia|reflexivity]. }
      eexists _, _, "t1". split; [exact Hread|]. repeat split; done.
    + etrans; [apply Hlive; simpl; lia|reflexivity].
Defined.

(** * The expansions on nil entries *)

Section AssignableScopesResult.
Import role_definition.

(** C4, as the code has it.  The expansion of the assignable scopes for
    transmission produces a list exactly when [assignable_scopes] holds no nil
    entry.  The list it then produces has the resource's own scope as
    element 0 and nowhere else, followed by the supplied scopes other than the
    own scope, in their order.  On a nil entry the type assertion
    [scope.(string)] panics and no list is produced: the loop lacks the
    nil check that the loops of the permission blocks have. *)
Theorem expandRoleDefinitionAssignableScopes_result (r : ResourceData) :
  let supplied := omap assert_string (assignable_scopes r) in
  let rest := filter (fun s => s ≠ scope r) supplied in
  (inil ∉ assignable_scopes r
   -> assignable_scopes r = istr <$> supplied
      /\ expandRoleDefinitionAssignableScopes r = Some (scope r :: rest)
      /\ (scope r :: rest) !! 0%nat = Some (scope r)
      /\ scope r ∉ rest)
  /\ (inil ∈ assignable_scopes r -> expandRoleDefinitionAssignableScopes r = None)
  /\ (is_Some (expandRoleDefinitionAssignableScopes r) <-> inil ∉ assignable_scopes r).
Proof.
  intros supplied rest. subst supplied rest.
  unfold expandRoleDefinitionAssignableScopes.
  rewrite expandRoleDefinitionAssignableScopes_loop_spec.
  destruct (decide (inil ∈ assignable_scopes r)) as [Hin|Hnin].
  - split; [done|]. split; [done|]. split; [by intros [? ?]|done].
  - split; [|split; [done|by split]].
    intros _. split; [|split; [done|split; [done|]]].
    + clear -Hnin. induction (assignable_scopes r) as [|[|a] l IH]; simpl; [done| |].
      * destruct Hnin. left.
      * f_equal. apply IH. intros ?. apply Hnin. by right.
    + intros Hown. by apply list_elem_of_filter in Hown as [Hne _].
Qed.

End AssignableScopesResult.

Section PermissionRoundTripNil.
Variable F : string -> Z.

Lemma boxed_strings_drop_nil (l : list iface) :
  istr <$> omap assert_string l = filter (fun a => a ≠ inil) l.
Proof.
  induction l as [|[|a] l IH]; simpl; [done| |].
  - by rewrite filter_cons, decide_False by (by intros []).
  - rewrite filter_cons, decide_True by done. by f_equal.
Qed.

Lemma filter_drop_nil_none (l : list iface) :
  inil ∉ l -> filter (fun a => a ≠ inil) l = l.
Proof.
  intros Hnin. induction l as [|a l IH]; [done|].
  rewrite filter_cons. destruct (decide (a ≠ inil)) as [_|Heq].
  - f_equal. apply IH. intros ?. apply Hnin. by right.
  - destruct Hnin. destruct a; [left|by destruct Heq].
Qed.

(** C5, amended.  For every permission block whose two sets are sets under
    the hash function [F], flattening the expansion of the block gives one
    block whose [actions] and [not_actions] are the original lists with
    their nil entries dropped, in the original order (so the original lists
    when they hold no nil entry), and whose [data_actions] and
    [not_data_actions] equal the original sets. *)
Theorem flatten_expand_permission_drops_nil_entries (raw : PermissionBlock) :
  Set_wf F (data_actions raw) ->
  Set_wf F (not_data_actions raw) ->
  exists raw',
    flattenRoleDefinitionPermissions F (Some (expandRoleDefinitionPermissions [Some raw]))
      = Some [Some raw']
    /\ actions raw' = filter (fun a => a ≠ inil) (actions raw)
    /\ not_actions raw' = filter (fun a => a ≠ inil) (not_actions raw)
    /\ (inil ∉ actions raw -> actions raw' = actions raw)
    /\ (inil ∉ not_actions raw -> not_actions raw' = not_actions raw)
    /\ Set_Equal (data_actions raw') (data_actions raw) = true
    /\ Set_Equal (not_data_actions raw') (not_data_actions raw) = true.
Proof.
  intros Hda Hnda.
  exists {| actions := filter (fun a => a ≠ inil) (actions raw);
            not_actions := filter (fun a => a ≠ inil) (not_actions raw);
            data_actions := data_actions raw;
            not_data_actions := not_data_actions raw |}.
  cbn [actions not_actions data_actions not_data_actions].
  split; [|split; [done|split; [done|]]].
  - unfold expandRoleDefinitionPermissions, flattenRoleDefinitionPermissions; simpl.
    unfold flattenPermission, expandPermission; simpl.
    rewrite !append_strings_Set_List, !append_strings_omap; simpl.
    fold (Set_List (data_actions raw)). fold (Set_List (not_data_actions raw)).
    by rewrite !NewSet_Set_List, !boxed_strings_drop_nil.
  - split; [apply filter_drop_nil_none|]. split; [apply filter_drop_nil_none|].
    unfold Set_Equal. by rewrite !bool_decide_eq_true.
Qed.

End PermissionRoundTripNil.

(** A nil entry among the assignable scopes: no list is produced, and
    Create and Update panic. *)
Lemma expandRoleDefinitionAssignableScopes_result_witness :
  role_definition.expandRoleDefinitionAssignableScopes (d demo.role_state_nil_scope) = None
  /\ role_definition.resourceArmRoleDefinitionCreate demo.meta_gone demo.role_state_nil_scope
     = Panic
  /\ role_definition.resourceArmRoleDefinitionUpdate demo.meta_settling
       demo.role_state_nil_scope
     = Panic.
Proof.
  split; [|split; reflexivity].
  apply (expandRoleDefinitionAssignableScopes_result (d demo.role_state_nil_scope)).
  right. left.
Defined.

(** C5 as stated fails: a populated block with a nil entry among its actions
    does not come back as it was, the nil entry is gone. *)
Lemma flatten_expand_permission_loses_nil_action :
  exists raw',
    flattenRoleDefinitionPermissions demo.HashString
      (Some (expandRoleDefinitionPermissions [Some demo.permission_block_nil_entry]))
    = Some [Some raw']
    /\ actions demo.permission_block_nil_entry = [inil; istr "*/read"]
    /\ actions raw' = [istr "*/read"]
    /\ actions raw' ≠ actions demo.permission_block_nil_entry.
Proof.
  exists {| actions := [istr "*/read"];
            not_actions := [istr "Microsoft.Authorization/*/write"];
            data_actions := {[ 4 := "a/rd" ]};
            not_data_actions := {[ 2 := "wr" ]} |}.
  split; [by vm_compute|]. split; [done|]. split; [done|]. discriminate.
Qed.

Lemma flatten_expand_permission_drops_nil_entries_witness :
  exists raw',
    flattenRoleDefinitionPermissions demo.HashString
      (Some (expandRoleDefinitionPermissions [Some demo.permission_block_nil_entry]))
    = Some [Some raw']
    /\ actions raw' = [istr "*/read"]
    /\ not_actions raw' = [istr "Microsoft.Authorization/*/write"]
    /\ Set_Equal (data_actions raw') {[ 4 := "a/rd" ]} = true
    /\ Set_Equal (not_data_actions raw') {[ 2 := "wr" ]} = true.
Proof.
  destruct (flatten_expand_permission_drops_nil_entries demo.HashString
              demo.permission_block_nil_entry)
    as (raw' & Hflat & Ha & Hn & _ & _ & Hda & Hnda).
  - intros k v H. simpl in H. apply lookup_singleton_Some in H as [<- <-]. reflexivity.
  - intros k v H. simpl in H. apply lookup_singleton_Some in H as [<- <-]. reflexivity.
  - exists raw'. split; [exact Hflat|]. split; [exact Ha|]. split; [exact Hn|].
    split; [exact Hda|exact Hnda].
Defined.
